(** * s3.py: listing, uploading, downloading and deleting S3 objects

    A shallow embedding of [s3.py] and the properties of its four
    functions [list_objects_s3], [upload_object_s3], [download_object_s3]
    and [delete_object_s3].

    The functions are thin wrappers over a boto3 S3 client.  The client is
    an interface here ([S3Client]): a record of the four request methods
    the source calls, each a transition on a world [W] (the remote service
    together with the local file system the SDK reads and writes) that
    either returns or raises.  Implementations are given further down: a
    scripted client that plays back canned responses (in the manner of
    botocore's Stubber), [S3Sim], a small in-memory object store, and
    [S3Transfer], the same store with the requests of an upload spelled
    out. *)

From Stdlib Require Import ZArith DecimalString DecimalNat.
From stdpp Require Import gmap strings list.

Local Open Scope Z_scope.

(** ** Python values and control flow *)

(** An instance of [Exception]: its class name and [str(e)], the text an
    f-string interpolates. *)
Record PyException := mkException {
  exc_class : string;
  exc_str : string
}.

(** A call either returns a value or raises. *)
Inductive result (A : Type) : Type :=
| Return (a : A)
| Raise (e : PyException).
Arguments Return {A} a.
Arguments Raise {A} e.

(** Truth value of [continuation_token]: [None] and the empty string are
    false, every other string is true. *)
Definition truthy (t : option string) : bool :=
  match t with
  | Some s => negb (String.eqb s EmptyString)
  | None => false
  end.

(** ** The boto3 S3 client *)

(** One entry of [response["Contents"]]. *)
Record S3Object := mkObject {
  Key : string;
  Size : Z
}.

(** The response dict of [list_objects_v2], restricted to the two entries
    the source reads; [None] is an absent entry. *)
Record ListObjectsV2Output := mkOutput {
  Contents : option (list S3Object);
  NextContinuationToken : option string
}.

(** The keyword arguments of [list_objects_v2]; [ContinuationToken] is
    [None] when the keyword is not passed. *)
Record ListObjectsV2Request := mkRequest {
  Bucket : string;
  Prefix : string;
  MaxKeys : Z;
  ContinuationToken : option string
}.

(** [boto3.s3.transfer.TransferConfig], the two settings the source sets. *)
Record TransferConfig := mkTransferConfig {
  multipart_threshold : Z;
  multipart_chunksize : Z
}.

Record S3Client (W : Type) := mkClient {
  list_objects_v2 : ListObjectsV2Request -> W -> result ListObjectsV2Output * W;
  (* upload_file(Filename, Bucket, Key, Config) *)
  upload_file : string -> string -> string -> TransferConfig -> W -> result unit * W;
  (* download_file(Bucket, Key, Filename) *)
  download_file : string -> string -> string -> W -> result unit * W;
  (* delete_object(Bucket, Key) *)
  delete_object : string -> string -> W -> result unit * W
}.
Arguments list_objects_v2 {W} _ _ _.
Arguments upload_file {W} _ _ _ _ _ _.
Arguments download_file {W} _ _ _ _ _.
Arguments delete_object {W} _ _ _ _.

(** The [boto3] module: [boto3.client(service_name)]. *)
Record Boto3 (W : Type) := mkBoto3 {
  client : string -> result (S3Client W)
}.
Arguments client {W} _ _.

(** ** Program state and the [Py] monad *)

(** What a call can change: the world behind the client and the lines
    printed to standard output. *)
Record State (W : Type) := mkState {
  world : W;
  stdout : list string
}.
Arguments mkState {W} _ _.
Arguments world {W} _.
Arguments stdout {W} _.

Definition Py (W A : Type) : Type := State W -> result A * State W.

Section PyMonad.
Context {W : Type}.

Definition py_ret {A} (a : A) : Py W A := fun st => (Return a, st).

Definition py_bind {A B} (m : Py W A) (k : A -> Py W B) : Py W B :=
  fun st =>
    match m st with
    | (Return a, st') => k a st'
    | (Raise e, st') => (Raise e, st')
    end.

(** [print(line)] *)
Definition print (line : string) : Py W unit :=
  fun st => (Return tt, mkState (world st) (stdout st ++ [line])).

(** A client request: a transition of the world. *)
Definition call {A} (f : W -> result A * W) : Py W A :=
  fun st => let '(r, w) := f (world st) in (r, mkState w (stdout st)).

(** The value of an expression that may raise. *)
Definition eval {A} (r : result A) : Py W A := fun st => (r, st).

(** [try: body  except Exception as e: handler e] *)
Definition try_except {A} (body : Py W A) (handler : PyException -> Py W A)
  : Py W A :=
  fun st =>
    match body st with
    | (Return a, st') => (Return a, st')
    | (Raise e, st') => handler e st'
    end.
End PyMonad.

Global Instance Py_ret W : MRet (Py W) := fun A a => py_ret a.
Global Instance Py_bind W : MBind (Py W) := fun A B k m => py_bind m k.

(** ** s3.py *)

(** The local variables of [list_objects_s3] that the loop updates. *)
Record Locals := mkLocals {
  continuation_token : option string;
  object_keys : list string
}.

(** The default of [max_keys]. *)
Definition default_max_keys : Z := 123.

(** The [TransferConfig] built by [upload_object_s3]. *)
Definition config : TransferConfig :=
  mkTransferConfig (8 * 1024 * 1024) (8 * 1024 * 1024).

Section S3.
Context {W : Type}.
Variable boto3 : Boto3 W.

(** The keyword arguments of the request of one iteration: the token is
    passed only when it is true. *)
Definition page_request (bucket_name prefix : string) (max_keys : Z)
    (token : option string) : ListObjectsV2Request :=
  if truthy token
  then mkRequest bucket_name prefix max_keys token
  else mkRequest bucket_name prefix max_keys None.

(** The [while True] loop of [list_objects_s3].  [fuel] bounds the number
    of iterations; [None] is a loop that has not finished within it.  The
    locals are returned with the outcome: [object_keys] is extended in
    place, so what was accumulated survives an exception. *)
Fixpoint list_loop (fuel : nat) (s3_client : S3Client W)
    (bucket_name prefix : string) (max_keys : Z) (l : Locals) (w : W)
  : option (result unit * Locals * W) :=
  match fuel with
  | O => None
  | S fuel' =>
    let request :=
      page_request bucket_name prefix max_keys (continuation_token l) in
    match list_objects_v2 s3_client request w with
    | (Raise e, w') => Some (Raise e, l, w')
    | (Return response, w') =>
      let keys :=
        match Contents response with
        | Some contents => object_keys l ++ map Key contents
        | None => object_keys l
        end in
      let token := NextContinuationToken response in
      if negb (truthy token)
      then Some (Return tt, mkLocals token keys, w')
      else list_loop fuel' s3_client bucket_name prefix max_keys
             (mkLocals token keys) w'
    end
  end.

Definition list_objects_s3 (fuel : nat) (bucket_name prefix : string)
    (max_keys : Z) (st : State W)
  : option (result (list string) * State W) :=
  match client boto3 "s3" with
  | Raise e => Some (Raise e, st)
  | Return s3_client =>
    match list_loop fuel s3_client bucket_name prefix max_keys
            (mkLocals None []) (world st) with
    | None => None
    | Some (Return _, l, w') =>
      Some (Return (object_keys l), mkState w' (stdout st))
    | Some (Raise e, l, w') =>
      Some (Return (object_keys l),
            mkState w' (stdout st ++ ["Error listing objects: " +:+ exc_str e]))
    end
  end.

Definition upload_object_s3 (bucket_name file_path object_name : string)
  : Py W unit :=
  s3_client ← eval (client boto3 "s3");
  try_except
    (print ("Uploading " +:+ file_path +:+ " to S3 bucket " +:+ bucket_name
            +:+ " as " +:+ object_name +:+ "...") ;;
     call (upload_file s3_client file_path bucket_name object_name config) ;;
     print ("File " +:+ file_path +:+ " uploaded successfully to "
            +:+ bucket_name +:+ "/" +:+ object_name) ;;
     print "Response: None")
    (fun e => print ("Error uploading file: " +:+ exc_str e)).

Definition download_object_s3 (bucket_name object_name download_path : string)
  : Py W unit :=
  s3_client ← eval (client boto3 "s3");
  try_except
    (print ("Downloading " +:+ object_name +:+ " from bucket " +:+ bucket_name
            +:+ " to " +:+ download_path +:+ "...") ;;
     call (download_file s3_client bucket_name object_name download_path) ;;
     print ("File downloaded successfully to: " +:+ download_path))
    (fun e => print ("Exception downloading object: " +:+ exc_str e)).

Definition delete_object_s3 (bucket_name object_name : string) : Py W unit :=
  s3_client ← eval (client boto3 "s3");
  try_except
    (print ("Attempting to delete " +:+ object_name +:+ " from bucket "
            +:+ bucket_name +:+ "...") ;;
     call (delete_object s3_client bucket_name object_name) ;;
     print ("Object " +:+ object_name +:+ " deleted successfully from bucket "
            +:+ bucket_name +:+ "."))
    (fun e => print ("Exception deleting object: " +:+ exc_str e)).
End S3.

Definition MiB : Z := 1024 * 1024.

(** An outcome surfaces an error when the call raises it to its caller. *)
Definition surfaces_error {A} (r : result A) : Prop := exists e, r = Raise e.

(** ** Observing the requests a client receives *)

(** One request and how it was answered. *)
Inductive Exchange :=
| ListObjectsV2 (request : ListObjectsV2Request) (r : result ListObjectsV2Output)
| UploadFile (Filename bucket key : string) (Config : TransferConfig) (r : result unit)
| DownloadFile (bucket key Filename : string) (r : result unit)
| DeleteObject (bucket key : string) (r : result unit).

(** [recording c] behaves as [c] and appends every exchange to a log. *)
Definition recording {W} (c : S3Client W) : S3Client (W * list Exchange) :=
  mkClient (W * list Exchange)
    (fun request '(w, log) =>
       let '(r, w') := list_objects_v2 c request w in
       (r, (w', log ++ [ListObjectsV2 request r])))
    (fun Filename bucket key cfg '(w, log) =>
       let '(r, w') := upload_file c Filename bucket key cfg w in
       (r, (w', log ++ [UploadFile Filename bucket key cfg r])))
    (fun bucket key Filename '(w, log) =>
       let '(r, w') := download_file c bucket key Filename w in
       (r, (w', log ++ [DownloadFile bucket key Filename r])))
    (fun bucket key '(w, log) =>
       let '(r, w') := delete_object c bucket key w in
       (r, (w', log ++ [DeleteObject bucket key r]))).

(** A [boto3] whose [client("s3")] is [c]. *)
Definition boto3_with {W} (c : S3Client W) : Boto3 W :=
  mkBoto3 W (fun _ => Return c).

(** The transfer configurations of the uploads in a log. *)
Fixpoint transfer_configs (log : list Exchange) : list TransferConfig :=
  match log with
  | [] => []
  | UploadFile _ _ _ cfg _ :: rest => cfg :: transfer_configs rest
  | _ :: rest => transfer_configs rest
  end.

(** The keys of one page. *)
Definition page_keys (response : ListObjectsV2Output) : list string :=
  match Contents response with
  | Some contents => map Key contents
  | None => []
  end.

(** ** The pagination protocol

    [pages c b p m token w log keys r w']: starting in world [w] with the
    cursor [token], requesting page after page from [c], each request with
    bucket [b], prefix [p], page size [m] and the token of the response
    before, ends after the finitely many exchanges [log], the pages holding
    [keys] in this order, in world [w']; [r] tells whether the last exchange
    was a response without a further token or a failure. *)
Inductive pages {W} (c : S3Client W) (b p : string) (m : Z)
  : option string -> W -> list Exchange -> list string -> result unit -> W -> Prop :=
| pages_fail token w e w' :
    list_objects_v2 c (mkRequest b p m token) w = (Raise e, w') ->
    pages c b p m token w
      [ListObjectsV2 (mkRequest b p m token) (Raise e)] [] (Raise e) w'
| pages_last token w response w' :
    list_objects_v2 c (mkRequest b p m token) w = (Return response, w') ->
    truthy (NextContinuationToken response) = false ->
    pages c b p m token w
      [ListObjectsV2 (mkRequest b p m token) (Return response)]
      (page_keys response) (Return tt) w'
| pages_more token w response w1 log keys r w' :
    list_objects_v2 c (mkRequest b p m token) w = (Return response, w1) ->
    truthy (NextContinuationToken response) = true ->
    pages c b p m (NextContinuationToken response) w1 log keys r w' ->
    pages c b p m token w
      (ListObjectsV2 (mkRequest b p m token) (Return response) :: log)
      (page_keys response ++ keys) r w'.

(** The token a request carries for the local [continuation_token]. *)
Definition sent_token (token : option string) : option string :=
  if truthy token then token else None.

(** What [list_objects_s3] prints for the way the loop ended. *)
Definition listing_output (r : result unit) : list string :=
  match r with
  | Return _ => []
  | Raise e => ["Error listing objects: " +:+ exc_str e]
  end.

(** The keys of the pages of a log, in the order of the log. *)
Fixpoint log_keys (log : list Exchange) : list string :=
  match log with
  | [] => []
  | ListObjectsV2 _ (Return response) :: rest => page_keys response ++ log_keys rest
  | _ :: rest => log_keys rest
  end.

(** A log of page requests for bucket [b], prefix [p] and page size [m]
    that starts with the cursor [token], where every later request carries
    the token of the response before it and only the last exchange is a
    failure or a response without a further token. *)
Fixpoint chained (b p : string) (m : Z) (token : option string)
    (log : list Exchange) : Prop :=
  match log with
  | [] => True
  | ListObjectsV2 request r :: rest =>
    request = mkRequest b p m token /\
    match r with
    | Raise _ => rest = []
    | Return response =>
      match rest with
      | [] => truthy (NextContinuationToken response) = false
      | _ :: _ =>
        truthy (NextContinuationToken response) = true /\
        chained b p m (NextContinuationToken response) rest
      end
    end
  | _ :: _ => False
  end.

(** What the three single-request functions print, for the outcome [r] of
    their request. *)
Definition upload_output (bucket_name file_path object_name : string)
    (r : result unit) : list string :=
  ("Uploading " +:+ file_path +:+ " to S3 bucket " +:+ bucket_name +:+ " as "
   +:+ object_name +:+ "...") ::
  match r with
  | Return _ =>
    [ "File " +:+ file_path +:+ " uploaded successfully to " +:+ bucket_name
      +:+ "/" +:+ object_name;
      "Response: None" ]
  | Raise e => [ "Error uploading file: " +:+ exc_str e ]
  end.

Definition download_output (bucket_name object_name download_path : string)
    (r : result unit) : list string :=
  ("Downloading " +:+ object_name +:+ " from bucket " +:+ bucket_name +:+ " to "
   +:+ download_path +:+ "...") ::
  match r with
  | Return _ => [ "File downloaded successfully to: " +:+ download_path ]
  | Raise e => [ "Exception downloading object: " +:+ exc_str e ]
  end.

Definition delete_output (bucket_name object_name : string) (r : result unit)
  : list string :=
  ("Attempting to delete " +:+ object_name +:+ " from bucket " +:+ bucket_name
   +:+ "...") ::
  match r with
  | Return _ =>
    [ "Object " +:+ object_name +:+ " deleted successfully from bucket "
      +:+ bucket_name +:+ "." ]
  | Raise e => [ "Exception deleting object: " +:+ exc_str e ]
  end.

(** A service whose token chain never ends: every response carries a
    token and no keys. *)
Definition looping_client : S3Client unit :=
  mkClient unit
    (fun _ w => (Return (mkOutput None (Some "again")), w))
    (fun _ _ _ _ w => (Return tt, w))
    (fun _ _ _ w => (Return tt, w))
    (fun _ _ w => (Return tt, w)).

(** ** A scripted client

    The world is a queue of canned answers, one per expected request, as
    with botocore's Stubber: a request takes the answer at the head of the
    queue when it is an answer for its method, and raises otherwise. *)
Module Stubber.

Inductive Stub :=
| stub_list_objects_v2 (r : result ListObjectsV2Output)
| stub_upload_file (r : result unit)
| stub_download_file (r : result unit)
| stub_delete_object (r : result unit).

Definition unexpected : PyException :=
  mkException "StubResponseError" "Unexpected API Call".

Definition s3_client : S3Client (list Stub) :=
  mkClient (list Stub)
    (fun _ q =>
       match q with
       | stub_list_objects_v2 r :: q' => (r, q')
       | _ => (Raise unexpected, q)
       end)
    (fun _ _ _ _ q =>
       match q with
       | stub_upload_file r :: q' => (r, q')
       | _ => (Raise unexpected, q)
       end)
    (fun _ _ _ q =>
       match q with
       | stub_download_file r :: q' => (r, q')
       | _ => (Raise unexpected, q)
       end)
    (fun _ _ q =>
       match q with
       | stub_delete_object r :: q' => (r, q')
       | _ => (Raise unexpected, q)
       end).

Definition boto3 : Boto3 (list Stub) := boto3_with s3_client.

Definition connection_error : PyException :=
  mkException "EndpointConnectionError"
    "Could not connect to the endpoint URL".

Definition page (keys : list string) (token : option string)
  : ListObjectsV2Output :=
  mkOutput (Some (map (fun k => mkObject k 0) keys)) token.

(** Two pages, then the connection drops. *)
Definition drops_on_third_page : list Stub :=
  [ stub_list_objects_v2 (Return (page ["logs/a"; "logs/b"] (Some "t1")));
    stub_list_objects_v2 (Return (page ["logs/c"; "logs/d"] (Some "t2")));
    stub_list_objects_v2 (Raise connection_error) ].

(** A page with a token and no [Contents], then a last page. *)
Definition empty_page_then_keys : list Stub :=
  [ stub_list_objects_v2 (Return (mkOutput None (Some "t1")));
    stub_list_objects_v2 (Return (page ["logs/a"] None)) ].

Definition empty_page_then_keys_log : list Exchange :=
  [ ListObjectsV2 (mkRequest "bucket-a" "logs/" 2 None)
      (Return (mkOutput None (Some "t1")));
    ListObjectsV2 (mkRequest "bucket-a" "logs/" 2 (Some "t1"))
      (Return (page ["logs/a"] None)) ].

(** Five keys in pages of two. *)
Definition three_pages : list Stub :=
  [ stub_list_objects_v2 (Return (page ["logs/a"; "logs/b"] (Some "t1")));
    stub_list_objects_v2 (Return (page ["logs/c"; "logs/d"] (Some "t2")));
    stub_list_objects_v2 (Return (page ["logs/e"] None)) ].

Definition three_pages_log : list Exchange :=
  [ ListObjectsV2 (mkRequest "bucket-a" "logs/" 2 None)
      (Return (page ["logs/a"; "logs/b"] (Some "t1")));
    ListObjectsV2 (mkRequest "bucket-a" "logs/" 2 (Some "t1"))
      (Return (page ["logs/c"; "logs/d"] (Some "t2")));
    ListObjectsV2 (mkRequest "bucket-a" "logs/" 2 (Some "t2"))
      (Return (page ["logs/e"] None)) ].

Definition drops_on_third_page_log : list Exchange :=
  [ ListObjectsV2 (mkRequest "bucket-a" "logs/" 2 None)
      (Return (page ["logs/a"; "logs/b"] (Some "t1")));
    ListObjectsV2 (mkRequest "bucket-a" "logs/" 2 (Some "t1"))
      (Return (page ["logs/c"; "logs/d"] (Some "t2")));
    ListObjectsV2 (mkRequest "bucket-a" "logs/" 2 (Some "t2"))
      (Raise connection_error) ].

End Stubber.

(** ** An in-memory object store

    The service as the four requests see it: buckets of objects in listing
    order, and the local files the transfers read and write.  Listing
    answers with at most [MaxKeys] (and at most 1000) of the keys with the
    prefix, from the position the continuation token encodes, with a token
    when keys remain. *)
Module S3Sim.

Definition Data := list Byte.byte.

Record World := mkWorld {
  buckets : gmap string (list (string * Data));
  files : gmap string Data
}.

Definition client_error (code operation message : string) : PyException :=
  mkException "ClientError"
    ("An error occurred (" +:+ code +:+ ") when calling the " +:+ operation
     +:+ " operation: " +:+ message).

Definition no_such_bucket (operation : string) : PyException :=
  client_error "NoSuchBucket" operation "The specified bucket does not exist".

Definition not_found : PyException :=
  client_error "404" "HeadObject" "Not Found".

Definition invalid_argument (message : string) : PyException :=
  client_error "InvalidArgument" "ListObjectsV2" message.

(** Continuation tokens: the number of keys already listed, in decimal
    after a letter, so that no token is the empty string. *)
Definition token_letter : Ascii.ascii := Ascii.ascii_of_nat 99.

Definition encode_token (position : nat) : string :=
  String token_letter (NilEmpty.string_of_uint (Nat.to_uint position)).

Definition decode_token (token : option string) : option nat :=
  match token with
  | None => Some O
  | Some (String a digits) =>
    if Ascii.eqb a token_letter
    then option_map Nat.of_uint (NilEmpty.uint_of_string digits)
    else None
  | Some EmptyString => None
  end.

(** The objects of a bucket whose key starts with the prefix. *)
Definition matching (prefix : string) (objects : list (string * Data))
  : list (string * Data) :=
  List.filter (fun o => String.prefix prefix (fst o)) objects.

Definition matching_keys (prefix : string) (objects : list (string * Data))
  : list string :=
  map fst (matching prefix objects).

Definition describe (o : string * Data) : S3Object :=
  mkObject (fst o) (Z.of_nat (length (snd o))).

Definition page_limit (max_keys : Z) : nat := Z.to_nat (Z.min max_keys 1000).

(** The number of requests that list [remaining] keys in pages of
    [limit]: the ceiling of their quotient, and one request when there is
    no key. *)
Definition page_count (limit remaining : nat) : nat :=
  Nat.max 1 ((remaining + limit - 1) / limit).

Definition sim_list_objects_v2 (request : ListObjectsV2Request) (w : World)
  : result ListObjectsV2Output * World :=
  match buckets w !! Bucket request with
  | None => (Raise (no_such_bucket "ListObjectsV2"), w)
  | Some objects =>
    if MaxKeys request <? 0
    then (Raise (invalid_argument "Argument max-keys must be non-negative"), w)
    else
      match decode_token (ContinuationToken request) with
      | None =>
        (Raise (invalid_argument "The continuation token provided is incorrect"), w)
      | Some position =>
        let found := matching (Prefix request) objects in
        let page := take (page_limit (MaxKeys request)) (drop position found) in
        let next := (position + length page)%nat in
        (Return
           (mkOutput
              (match page with [] => None | _ => Some (map describe page) end)
              (if (0 <? length page)%nat && (next <? length found)%nat
               then Some (encode_token next) else None)),
         w)
      end
  end.

Definition lookup_object (w : World) (bucket key : string) : option Data :=
  objects ← buckets w !! bucket;
  snd <$> List.find (fun o => String.eqb (fst o) key) objects.

(** Stores an object at its place in listing order, replacing the object
    of the same key. *)
Fixpoint put (key : string) (data : Data) (objects : list (string * Data))
  : list (string * Data) :=
  match objects with
  | [] => [(key, data)]
  | o :: rest =>
    if String.eqb (fst o) key then (key, data) :: rest
    else if String.ltb key (fst o) then (key, data) :: o :: rest
    else o :: put key data rest
  end.

Definition remove (key : string) (objects : list (string * Data))
  : list (string * Data) :=
  List.filter (fun o => negb (String.eqb (fst o) key)) objects.

Definition sim_upload_file (Filename bucket key : string) (cfg : TransferConfig)
    (w : World) : result unit * World :=
  match files w !! Filename with
  | None =>
    (Raise (mkException "FileNotFoundError"
              ("[Errno 2] No such file or directory: '" +:+ Filename +:+ "'")), w)
  | Some data =>
    match buckets w !! bucket with
    | None =>
      (Raise (mkException "S3UploadFailedError"
                ("Failed to upload " +:+ Filename +:+ " to " +:+ bucket +:+ "/"
                 +:+ key +:+ ": " +:+ exc_str (no_such_bucket "PutObject"))), w)
    | Some objects =>
      (Return tt, mkWorld (<[bucket := put key data objects]> (buckets w)) (files w))
    end
  end.

Definition sim_download_file (bucket key Filename : string) (w : World)
  : result unit * World :=
  match lookup_object w bucket key with
  | None => (Raise not_found, w)
  | Some data => (Return tt, mkWorld (buckets w) (<[Filename := data]> (files w)))
  end.

Definition sim_delete_object (bucket key : string) (w : World)
  : result unit * World :=
  match buckets w !! bucket with
  | None => (Raise (no_such_bucket "DeleteObject"), w)
  | Some objects =>
    (Return tt, mkWorld (<[bucket := remove key objects]> (buckets w)) (files w))
  end.

Definition s3_client : S3Client World :=
  mkClient World sim_list_objects_v2 sim_upload_file sim_download_file
    sim_delete_object.

Definition boto3 : Boto3 World := boto3_with s3_client.

(** The same store behind a recording client. *)
Definition recorded_boto3 : Boto3 (World * list Exchange) :=
  boto3_with (recording s3_client).

(** [bucket-a] with five objects under [logs/] and one elsewhere. *)
Definition bucket_a : list (string * Data) :=
  [ ("conf/app.ini", []);
    ("logs/2024-01-01.log", []);
    ("logs/2024-01-02.log", []);
    ("logs/2024-01-03.log", []);
    ("logs/2024-01-04.log", []);
    ("logs/2024-01-05.log", []) ].

Definition example_world : World :=
  mkWorld {[ "bucket-a" := bucket_a; "bucket-empty" := [] ]} ∅.

End S3Sim.

(** ** The managed transfer behind [upload_file]

    [upload_file] hands the file to the SDK's transfer manager, which
    sends it to the service in one request or in parts, as the transfer
    configuration says.  [S3Transfer] is the store of [S3Sim] with this
    layer spelled out: its world keeps the requests the uploads have sent,
    and the service builds the object from them. *)
Module S3Transfer.
Import S3Sim.

(** The requests of an upload as the service receives them. *)
Inductive ApiRequest :=
| PutObject (bucket key : string) (body : Data)
| CreateMultipartUpload (bucket key : string)
| UploadPart (bucket key : string) (part_number : nat) (body : Data)
| CompleteMultipartUpload (bucket key : string) (part_count : nat).

(** [data] cut into consecutive pieces of [chunk] bytes, the last one
    holding what is left.  [fuel] bounds the number of pieces. *)
Fixpoint split_parts (fuel chunk : nat) (data : Data) : list Data :=
  match fuel with
  | O => []
  | S fuel' =>
    match data with
    | [] => []
    | _ :: _ => take chunk data :: split_parts fuel' chunk (drop chunk data)
    end
  end.

Definition parts (chunk : nat) (data : Data) : list Data :=
  split_parts (length data) chunk data.

(** The part requests of a multipart upload, numbered from [number]. *)
Fixpoint upload_parts (bucket key : string) (number : nat) (bodies : list Data)
  : list ApiRequest :=
  match bodies with
  | [] => []
  | body :: rest =>
    UploadPart bucket key number body :: upload_parts bucket key (S number) rest
  end.

(** Modelled from the spec: the transfer manager of boto3, which turns a
    file and a [TransferConfig] into requests, is not part of the
    repository.  As specification 4.1 words it, and as the comments on the
    two settings in [upload_object_s3] say ("files larger than this will be
    uploaded in parts", "chunk size per part"): a file of at most
    [multipart_threshold] bytes goes in a single request; a larger file is
    split into parts of [multipart_chunksize] bytes and sent as a multipart
    upload, which the service reassembles. *)
Definition transfer_requests (cfg : TransferConfig) (bucket key : string)
    (data : Data) : list ApiRequest :=
  if Z.of_nat (length data) <=? multipart_threshold cfg
  then [PutObject bucket key data]
  else
    CreateMultipartUpload bucket key
    :: upload_parts bucket key 1
         (parts (Z.to_nat (multipart_chunksize cfg)) data)
    ++ [CompleteMultipartUpload bucket key
          (length (parts (Z.to_nat (multipart_chunksize cfg)) data))].

Definition store_object (bucket key : string) (body : Data) (w : World) : World :=
  match buckets w !! bucket with
  | Some objects => mkWorld (<[bucket := put key body objects]> (buckets w)) (files w)
  | None => w
  end.

(** The service handling one request of an upload; the second component
    holds the parts of the multipart upload in progress. *)
Definition serve (st : World * list Data) (request : ApiRequest)
  : World * list Data :=
  let '(w, pending) := st in
  match request with
  | PutObject bucket key body => (store_object bucket key body w, pending)
  | CreateMultipartUpload _ _ => (w, [])
  | UploadPart _ _ _ body => (w, pending ++ [body])
  | CompleteMultipartUpload bucket key _ =>
    (store_object bucket key (concat pending) w, [])
  end.

Definition transfer_upload_file (Filename bucket key : string)
    (cfg : TransferConfig) (st : World * list ApiRequest)
  : result unit * (World * list ApiRequest) :=
  let '(w, sent) := st in
  match files w !! Filename with
  | None =>
    (Raise (mkException "FileNotFoundError"
              ("[Errno 2] No such file or directory: '" +:+ Filename +:+ "'")), st)
  | Some data =>
    let requests := transfer_requests cfg bucket key data in
    match buckets w !! bucket with
    | None =>
      (Raise (mkException "S3UploadFailedError"
                ("Failed to upload " +:+ Filename +:+ " to " +:+ bucket +:+ "/"
                 +:+ key +:+ ": " +:+ exc_str (no_such_bucket "PutObject"))),
       (w, sent ++ take 1 requests))
    | Some _ =>
      (Return tt, (fst (fold_left serve requests (w, [])), sent ++ requests))
    end
  end.

(** The other requests are those of [S3Sim]; they send nothing through the
    transfer manager. *)
Definition s3_client : S3Client (World * list ApiRequest) :=
  mkClient (World * list ApiRequest)
    (fun request '(w, sent) =>
       let '(r, w') := sim_list_objects_v2 request w in (r, (w', sent)))
    transfer_upload_file
    (fun bucket key Filename '(w, sent) =>
       let '(r, w') := sim_download_file bucket key Filename w in (r, (w', sent)))
    (fun bucket key '(w, sent) =>
       let '(r, w') := sim_delete_object bucket key w in (r, (w', sent))).

Definition boto3 : Boto3 (World * list ApiRequest) := boto3_with s3_client.

(** A world with a local file of five bytes. *)
Definition small_file_world : World :=
  mkWorld (buckets example_world)
    {[ "iris.joblib" := [Byte.x01; Byte.x02; Byte.x03; Byte.x04; Byte.x05] ]}.

End S3Transfer.

(** ** The script run as a program

    The body of [if __name__ == "__main__":] with its commented-out tests
    left out: one delete, then the listing of the whole bucket printed.
    [repr] is Python's rendering of a list of strings, which [print]
    applies to the listing. *)
Definition main_bucket_name : string := "*****".

Definition main_object_name : string := "new_test_folder_s3/iris_large.joblib".

Definition main {W} (repr : list string -> string) (boto3 : Boto3 W)
    (fuel : nat) (st : State W) : option (result unit * State W) :=
  match delete_object_s3 boto3 main_bucket_name main_object_name st with
  | (Raise e, st1) => Some (Raise e, st1)
  | (Return _, st1) =>
    match list_objects_s3 boto3 fuel main_bucket_name EmptyString
            default_max_keys st1 with
    | None => None
    | Some (Raise e, st2) => Some (Raise e, st2)
    | Some (Return keys, st2) =>
      Some (Return tt, mkState (world st2) (stdout st2 ++ [repr keys]))
    end
  end.

(** ** A client that stops answering

    [failing_after e c] answers as [c] for the number of requests its
    world still allows and raises [e] for every request after them. *)
Definition failing_after {W} (e : PyException) (c : S3Client W)
  : S3Client (W * nat) :=
  mkClient (W * nat)
    (fun request '(w, n) =>
       match n with
       | O => (Raise e, (w, O))
       | S n' => let '(r, w') := list_objects_v2 c request w in (r, (w', n'))
       end)
    (fun Filename bucket key cfg '(w, n) =>
       match n with
       | O => (Raise e, (w, O))
       | S n' =>
         let '(r, w') := upload_file c Filename bucket key cfg w in (r, (w', n'))
       end)
    (fun bucket key Filename '(w, n) =>
       match n with
       | O => (Raise e, (w, O))
       | S n' =>
         let '(r, w') := download_file c bucket key Filename w in (r, (w', n'))
       end)
    (fun bucket key '(w, n) =>
       match n with
       | O => (Raise e, (w, O))
       | S n' => let '(r, w') := delete_object c bucket key w in (r, (w', n'))
       end).

(** A scripted service whose first page carries an empty token although a
    second page is ready. *)
Definition empty_token_script : list Stubber.Stub :=
  [ Stubber.stub_list_objects_v2
      (Return (Stubber.page ["logs/a"] (Some EmptyString)));
    Stubber.stub_list_objects_v2 (Return (Stubber.page ["logs/b"] None)) ].

(** The continuation tokens of the page requests of a log. *)
Fixpoint sent_tokens (log : list Exchange) : list (option string) :=
  match log with
  | [] => []
  | ListObjectsV2 request _ :: rest => ContinuationToken request :: sent_tokens rest
  | _ :: rest => sent_tokens rest
  end.

(** Whether an exchange is a page request. *)
Definition is_list_request (x : Exchange) : bool :=
  match x with ListObjectsV2 _ _ => true | _ => false end.

(** * Properties *)

(** ** The pagination loop against any client *)

Section Pagination.
Context {W : Type}.
Variable c : S3Client W.
Variables (b p : string) (m : Z).

Lemma page_request_sent token :
  page_request b p m token = mkRequest b p m (sent_token token).
Proof. unfold page_request, sent_token. by destruct (truthy token). Qed.

(** [object_keys.extend(...)] under the test for [Contents]. *)
Lemma extend_page_keys (keys : list string) response :
  match Contents response with
  | Some contents => keys ++ map Key contents
  | None => keys
  end = keys ++ page_keys response.
Proof. unfold page_keys. destruct (Contents response); [done|]. by rewrite app_nil_r. Qed.

Lemma sent_token_truthy token : truthy token = true -> sent_token token = token.
Proof. unfold sent_token. by intros ->. Qed.

(** The loop follows the protocol: with fuel for every exchange it ends
    as the protocol does, the keys of the pages appended to the keys
    held before. *)
Lemma list_loop_pages token w log keys r w' :
  pages c b p m token w log keys r w' ->
  forall l fuel,
    sent_token (continuation_token l) = token ->
    (length log <= fuel)%nat ->
    exists token',
      list_loop fuel c b p m l w
      = Some (r, mkLocals token' (object_keys l ++ keys), w').
Proof.
  induction 1 as [token w e w' Hcall | token w rs w' Hcall Hlast
                 | token w rs w1 log keys r w' Hcall Hmore _ IH];
    intros l fuel Htok Hfuel;
    (destruct fuel as [|fuel]; [simpl in Hfuel; lia|]);
    simpl; rewrite page_request_sent, Htok, Hcall, ?extend_page_keys.
  - exists (continuation_token l). rewrite app_nil_r. by destruct l.
  - rewrite Hlast. simpl. by eexists.
  - rewrite Hmore. simpl.
    edestruct (IH (mkLocals (NextContinuationToken rs)
                     (object_keys l ++ page_keys rs)) fuel) as [token' ->].
    + by apply sent_token_truthy.
    + simpl in Hfuel. lia.
    + exists token'. simpl. by rewrite <- app_assoc.
Qed.

(** The recording client goes through the same exchanges and logs them. *)
Lemma pages_recording token w log keys r w' :
  pages c b p m token w log keys r w' ->
  forall log0,
    pages (recording c) b p m token (w, log0) log keys r (w', log0 ++ log).
Proof.
  induction 1 as [token w e w' Hcall | token w rs w' Hcall Hlast
                 | token w rs w1 log keys r w' Hcall Hmore _ IH];
    intros log0.
  - apply pages_fail. simpl. by rewrite Hcall.
  - apply pages_last; [|done]. simpl. by rewrite Hcall.
  - eapply pages_more; [|done|].
    + simpl. rewrite Hcall. reflexivity.
    + specialize (IH (log0 ++ [ListObjectsV2 (mkRequest b p m token) (Return rs)])).
      by rewrite <- app_assoc in IH.
Qed.

Lemma pages_log_keys token w log keys r w' :
  pages c b p m token w log keys r w' -> keys = log_keys log.
Proof. induction 1; simpl; [done| by rewrite app_nil_r | by f_equal]. Qed.

Lemma pages_chained token w log keys r w' :
  pages c b p m token w log keys r w' -> chained b p m token log.
Proof.
  induction 1 as [| |token w rs w1 log keys r w' Hcall Hmore Hrest IH];
    simpl; [done..|].
  split; [done|]. destruct log; [inversion Hrest|done].
Qed.

Lemma pages_nonempty token w log keys r w' :
  pages c b p m token w log keys r w' -> (0 < length log)%nat.
Proof. destruct 1; simpl; lia. Qed.

Lemma list_objects_s3_pages boto3 w log keys r w' out fuel :
  client boto3 "s3" = Return c ->
  pages c b p m None w log keys r w' ->
  (length log <= fuel)%nat ->
  list_objects_s3 boto3 fuel b p m (mkState w out)
  = Some (Return keys, mkState w' (out ++ listing_output r)).
Proof.
  intros Hc Hpages Hfuel. unfold list_objects_s3. rewrite Hc. cbn [world stdout].
  destruct (list_loop_pages _ _ _ _ _ _ Hpages (mkLocals None []) fuel)
    as [token' ->]; [done..|].
  simpl. destruct r; simpl; [by rewrite app_nil_r | done].
Qed.
End Pagination.

(** ** The single-request functions against any client *)

Section SingleRequest.
Context {W : Type}.
Variable boto3 : Boto3 W.
Variable c : S3Client W.
Hypothesis boto3_client : client boto3 "s3" = Return c.

Ltac run_py :=
  unfold upload_object_s3, download_object_s3, delete_object_s3,
    mbind, Py_bind, py_bind, eval, try_except, call, print;
  rewrite boto3_client; cbn [world stdout].

Lemma upload_object_s3_run bucket_name file_path object_name w out r w' :
  upload_file c file_path bucket_name object_name config w = (r, w') ->
  upload_object_s3 boto3 bucket_name file_path object_name (mkState w out)
  = (Return tt,
     mkState w' (out ++ upload_output bucket_name file_path object_name r)).
Proof.
  intros Hcall. run_py. rewrite Hcall.
  destruct r as [[]|e]; cbn [world stdout upload_output];
    by rewrite <- ?app_assoc.
Qed.

Lemma download_object_s3_run bucket_name object_name download_path w out r w' :
  download_file c bucket_name object_name download_path w = (r, w') ->
  download_object_s3 boto3 bucket_name object_name download_path (mkState w out)
  = (Return tt,
     mkState w' (out ++ download_output bucket_name object_name download_path r)).
Proof.
  intros Hcall. run_py. rewrite Hcall.
  destruct r as [[]|e]; cbn [world stdout download_output];
    by rewrite <- ?app_assoc.
Qed.

Lemma delete_object_s3_run bucket_name object_name w out r w' :
  delete_object c bucket_name object_name w = (r, w') ->
  delete_object_s3 boto3 bucket_name object_name (mkState w out)
  = (Return tt, mkState w' (out ++ delete_output bucket_name object_name r)).
Proof.
  intros Hcall. run_py. rewrite Hcall.
  destruct r as [[]|e]; cbn [world stdout delete_output];
    by rewrite <- ?app_assoc.
Qed.
End SingleRequest.

(** ** Listing: protocol, failures and termination *)

Lemma pages_failed_last {W} (c : S3Client W) b p m token w log keys e w' :
  pages c b p m token w log keys (Raise e) w' ->
  exists earlier request,
    log = earlier ++ [ListObjectsV2 request (Raise e)] /\ keys = log_keys earlier.
Proof.
  remember (Raise e) as r eqn:Hr.
  induction 1 as [token w e0 w' Hcall | token w rs w' Hcall Hlast
                 | token w rs w1 log keys r w' Hcall Hmore _ IH].
  - injection Hr as ->. by exists [], (mkRequest b p m token).
  - discriminate.
  - destruct (IH Hr) as (earlier & request & -> & ->).
    by exists (ListObjectsV2 (mkRequest b p m token) (Return rs) :: earlier), request.
Qed.

(** The rules of [pages] with the log and the keys given by equations, to
    derive the exchanges with a concrete client by evaluation. *)
Lemma pages_fail_eq {W} (c : S3Client W) b p m token w e w' log :
  log = [ListObjectsV2 (mkRequest b p m token) (Raise e)] ->
  list_objects_v2 c (mkRequest b p m token) w = (Raise e, w') ->
  pages c b p m token w log [] (Raise e) w'.
Proof. intros ->. apply pages_fail. Qed.

Lemma pages_last_eq {W} (c : S3Client W) b p m token w response w' log keys :
  log = [ListObjectsV2 (mkRequest b p m token) (Return response)] ->
  list_objects_v2 c (mkRequest b p m token) w = (Return response, w') ->
  truthy (NextContinuationToken response) = false ->
  keys = page_keys response ->
  pages c b p m token w log keys (Return tt) w'.
Proof. intros -> ? ? ->. by apply pages_last. Qed.

Lemma pages_more_eq {W} (c : S3Client W) b p m token w response w1
    log log' keys keys' r w' :
  log' = ListObjectsV2 (mkRequest b p m token) (Return response) :: log ->
  list_objects_v2 c (mkRequest b p m token) w = (Return response, w1) ->
  truthy (NextContinuationToken response) = true ->
  keys' = page_keys response ++ keys ->
  pages c b p m (NextContinuationToken response) w1 log keys r w' ->
  pages c b p m token w log' keys' r w'.
Proof. intros -> ? ? ->. by apply pages_more. Qed.

Ltac play_pages :=
  first
    [ eapply pages_fail_eq; [reflexivity | reflexivity]
    | eapply pages_last_eq; [reflexivity | reflexivity | reflexivity | reflexivity]
    | eapply pages_more_eq;
      [reflexivity | reflexivity | reflexivity | reflexivity | play_pages] ].

(** C4: [list_objects_s3] requests page after page with the given prefix
    and page size, each request after the first carrying the continuation
    token of the response before, until a response has no further token;
    the keys it returns are the keys of the pages, earlier pages first and
    every page in the order of its response.  The requests are the ones a
    recording client logs. *)
Theorem list_objects_s3_follows_pagination {W} (c : S3Client W)
    (b p : string) (m : Z) (w w' : W) (log : list Exchange)
    (keys out : list string) (r : result unit) (fuel : nat) :
  pages c b p m None w log keys r w' ->
  (length log <= fuel)%nat ->
  list_objects_s3 (boto3_with (recording c)) fuel b p m (mkState (w, []) out)
  = Some (Return keys, mkState (w', log) (out ++ listing_output r))
  /\ chained b p m None log
  /\ keys = log_keys log.
Proof.
  intros Hpages Hfuel. split; [|split].
  - apply (list_objects_s3_pages (recording c) b p m _ (w, []) log keys r (w', log));
      [done| |done].
    apply (pages_recording c b p m None w log keys r w' Hpages []).
  - by eapply pages_chained.
  - by eapply pages_log_keys.
Qed.

Lemma list_objects_s3_follows_pagination_witness :
  pages Stubber.s3_client "bucket-a" "logs/" 2 None Stubber.three_pages
    Stubber.three_pages_log
    ["logs/a"; "logs/b"; "logs/c"; "logs/d"; "logs/e"] (Return tt) []
  /\ (length Stubber.three_pages_log <= 3)%nat
  /\ (list_objects_s3 (boto3_with (recording Stubber.s3_client)) 3
        "bucket-a" "logs/" 2 (mkState (Stubber.three_pages, []) [])
      = Some (Return ["logs/a"; "logs/b"; "logs/c"; "logs/d"; "logs/e"],
              mkState ([], Stubber.three_pages_log) ([] ++ listing_output (Return tt)))
      /\ chained "bucket-a" "logs/" 2 None Stubber.three_pages_log
      /\ ["logs/a"; "logs/b"; "logs/c"; "logs/d"; "logs/e"]
         = log_keys Stubber.three_pages_log).
Proof.
  assert (Hpages :
    pages Stubber.s3_client "bucket-a" "logs/" 2 None Stubber.three_pages
      Stubber.three_pages_log
      ["logs/a"; "logs/b"; "logs/c"; "logs/d"; "logs/e"] (Return tt) [])
    by play_pages.
  split; [exact Hpages|]. split; [simpl; lia|].
  apply (list_objects_s3_follows_pagination _ _ _ _ _ _ _ _ _ _ _ Hpages).
  simpl; lia.
Defined.

(** C2, as stated, fails: when the third page request fails nothing is
    raised to the caller.  The call returns the four keys of the first two
    pages, and the cause only appears in a printed line. *)
Lemma listing_error_not_surfaced :
  list_objects_s3 Stubber.boto3 3 "bucket-a" "logs/" 2
    (mkState Stubber.drops_on_third_page [])
  = Some (Return ["logs/a"; "logs/b"; "logs/c"; "logs/d"],
          mkState [] ["Error listing objects: Could not connect to the endpoint URL"])
  /\ ~ (exists e st',
         list_objects_s3 Stubber.boto3 3 "bucket-a" "logs/" 2
           (mkState Stubber.drops_on_third_page [])
         = Some (Raise e, st')).
Proof.
  split; [reflexivity|]. intros (e & st' & H). vm_compute in H. discriminate.
Qed.

(** C2, amended: when a page request fails with [e], [list_objects_s3]
    leaves the loop, prints "Error listing objects: " followed by [str(e)],
    raises nothing and returns the keys of the pages received before the
    failure (none when the first request fails). *)
Theorem list_objects_s3_failure_returns_partial {W} (boto3 : Boto3 W)
    (c : S3Client W) (b p : string) (m : Z) (w w' : W) (log : list Exchange)
    (keys out : list string) (e : PyException) (fuel : nat) :
  client boto3 "s3" = Return c ->
  pages c b p m None w log keys (Raise e) w' ->
  (length log <= fuel)%nat ->
  list_objects_s3 boto3 fuel b p m (mkState w out)
  = Some (Return keys,
          mkState w' (out ++ ["Error listing objects: " +:+ exc_str e]))
  /\ exists earlier request,
       log = earlier ++ [ListObjectsV2 request (Raise e)]
       /\ keys = log_keys earlier.
Proof.
  intros Hc Hpages Hfuel. split.
  - apply (list_objects_s3_pages c b p m boto3 w log keys (Raise e) w' out fuel Hc Hpages Hfuel).
  - by eapply pages_failed_last.
Qed.

Lemma list_objects_s3_failure_returns_partial_witness :
  client Stubber.boto3 "s3" = Return Stubber.s3_client
  /\ pages Stubber.s3_client "bucket-a" "logs/" 2 None Stubber.drops_on_third_page
       Stubber.drops_on_third_page_log ["logs/a"; "logs/b"; "logs/c"; "logs/d"]
       (Raise Stubber.connection_error) []
  /\ (length Stubber.drops_on_third_page_log <= 3)%nat
  /\ (list_objects_s3 Stubber.boto3 3 "bucket-a" "logs/" 2
        (mkState Stubber.drops_on_third_page ["listing"])
      = Some (Return ["logs/a"; "logs/b"; "logs/c"; "logs/d"],
              mkState []
                (["listing"]
                 ++ ["Error listing objects: " +:+ exc_str Stubber.connection_error]))
      /\ exists earlier request,
           Stubber.drops_on_third_page_log
           = earlier ++ [ListObjectsV2 request (Raise Stubber.connection_error)]
           /\ ["logs/a"; "logs/b"; "logs/c"; "logs/d"] = log_keys earlier).
Proof.
  assert (Hpages :
    pages Stubber.s3_client "bucket-a" "logs/" 2 None Stubber.drops_on_third_page
      Stubber.drops_on_third_page_log ["logs/a"; "logs/b"; "logs/c"; "logs/d"]
      (Raise Stubber.connection_error) [])
    by play_pages.
  split; [reflexivity|]. split; [exact Hpages|]. split; [simpl; lia|].
  apply (list_objects_s3_failure_returns_partial Stubber.boto3 Stubber.s3_client
           _ _ _ _ _ _ _ _ _ _ eq_refl Hpages).
  simpl; lia.
Defined.

(** C3, as stated, fails for listing: after a failed page request the
    value returned is neither [None] nor empty when earlier pages held
    keys. *)
Lemma listing_failure_result_not_empty :
  exists keys st',
    list_objects_s3 Stubber.boto3 10 "bucket-a" "logs/" 2
      (mkState Stubber.drops_on_third_page [])
    = Some (Return keys, st')
    /\ stdout st'
       = ["Error listing objects: Could not connect to the endpoint URL"]
    /\ keys <> [].
Proof. do 2 eexists. split; [reflexivity|]. split; [reflexivity|discriminate]. Qed.

(** C3, amended: every exception raised by a request of the storage client
    is caught inside the function that made the request and only printed;
    none propagates out of [list_objects_s3], [upload_object_s3],
    [download_object_s3] or [delete_object_s3].  The last three return
    [None]; [list_objects_s3] returns the keys of the pages received so
    far, having printed at most one line. *)
Theorem client_exceptions_never_propagate {W} (boto3 : Boto3 W) (c : S3Client W) :
  client boto3 "s3" = Return c ->
  (forall fuel b p m st r st',
      list_objects_s3 boto3 fuel b p m st = Some (r, st') ->
      exists keys,
        r = Return keys
        /\ (stdout st' = stdout st
            \/ exists e, stdout st'
                         = stdout st ++ ["Error listing objects: " +:+ exc_str e]))
  /\ (forall b p m w log keys r w' out fuel,
         pages c b p m None w log keys r w' ->
         (length log <= fuel)%nat ->
         list_objects_s3 boto3 fuel b p m (mkState w out)
         = Some (Return keys, mkState w' (out ++ listing_output r)))
  /\ (forall b f k w out r w',
         upload_file c f b k config w = (r, w') ->
         upload_object_s3 boto3 b f k (mkState w out)
         = (Return tt, mkState w' (out ++ upload_output b f k r)))
  /\ (forall b k f w out r w',
         download_file c b k f w = (r, w') ->
         download_object_s3 boto3 b k f (mkState w out)
         = (Return tt, mkState w' (out ++ download_output b k f r)))
  /\ (forall b k w out r w',
         delete_object c b k w = (r, w') ->
         delete_object_s3 boto3 b k (mkState w out)
         = (Return tt, mkState w' (out ++ delete_output b k r))).
Proof.
  intros Hc. repeat split.
  - intros fuel b p m st r st'. unfold list_objects_s3. rewrite Hc.
    destruct (list_loop fuel c b p m _ (world st)) as [[[[[]|e] l] w']|];
      intros [= <- <-]; eexists; (split; [reflexivity|]); cbn [stdout]; eauto.
  - intros. by apply list_objects_s3_pages with (c := c) (log := log).
  - intros. by apply upload_object_s3_run with (c := c).
  - intros. by apply download_object_s3_run with (c := c).
  - intros. by apply delete_object_s3_run with (c := c).
Qed.

Lemma client_exceptions_never_propagate_witness :
  client Stubber.boto3 "s3" = Return Stubber.s3_client
  /\ upload_object_s3 Stubber.boto3 "bucket-a" "/tmp/report.csv" "report.csv"
       (mkState [Stubber.stub_upload_file (Raise Stubber.connection_error)] [])
     = (Return tt,
        mkState []
          ([] ++ upload_output "bucket-a" "/tmp/report.csv" "report.csv"
                   (Raise Stubber.connection_error))).
Proof.
  split; [reflexivity|].
  apply (proj1 (proj2 (proj2 (client_exceptions_never_propagate Stubber.boto3
                                Stubber.s3_client eq_refl)))).
  reflexivity.
Defined.

(** [boto3.client("s3")] is called before the [try]: an exception of the
    construction itself is the one thing that leaves the functions. *)
Lemma client_construction_outside_try {W} (boto3 : Boto3 W) e fuel b p m k f st :
  client boto3 "s3" = Raise e ->
  list_objects_s3 boto3 fuel b p m st = Some (Raise e, st)
  /\ upload_object_s3 boto3 b f k st = (Raise e, st)
  /\ download_object_s3 boto3 b k f st = (Raise e, st)
  /\ delete_object_s3 boto3 b k st = (Raise e, st).
Proof.
  intros He.
  unfold list_objects_s3, upload_object_s3, download_object_s3, delete_object_s3,
    mbind, Py_bind, py_bind, eval.
  by rewrite He.
Qed.

(** Without a last page the loop does not end: no fuel is enough. *)
Lemma list_loop_looping_client fuel b p m l w :
  list_loop fuel looping_client b p m l w = None.
Proof. revert l w. induction fuel as [|fuel IH]; intros l w; [done|]. simpl. apply IH. Qed.

(** C10: when the token chain of the service is well founded, that is,
    the exchanges that start without a token end after finitely many
    ([pages]), the loop of [list_objects_s3] ends and the call returns the
    finite list of the keys of these pages, for every fuel that covers the
    exchanges.  A response that has a [NextContinuationToken] and no
    [Contents] adds no key, and the loop goes on to the next page with that
    token. *)
Theorem list_objects_s3_terminates {W} (boto3 : Boto3 W) (c : S3Client W)
    (b p : string) (m : Z) :
  client boto3 "s3" = Return c ->
  (forall w log keys r w' out,
      pages c b p m None w log keys r w' ->
      forall fuel, (length log <= fuel)%nat ->
        exists st',
          list_objects_s3 boto3 fuel b p m (mkState w out) = Some (Return keys, st')
          /\ world st' = w')
  /\ (forall fuel l w response w',
         list_objects_v2 c (page_request b p m (continuation_token l)) w
         = (Return response, w') ->
         Contents response = None ->
         truthy (NextContinuationToken response) = true ->
         list_loop (S fuel) c b p m l w
         = list_loop fuel c b p m
             (mkLocals (NextContinuationToken response) (object_keys l)) w').
Proof.
  intros Hc. split.
  - intros w log keys r w' out Hpages fuel Hfuel. eexists. split.
    + by apply (list_objects_s3_pages c b p m boto3 w log keys r w' out fuel).
    + reflexivity.
  - intros fuel l w response w' Hcall Hcontents Hmore.
    simpl. by rewrite Hcall, Hcontents, Hmore.
Qed.

Lemma list_objects_s3_terminates_witness :
  client Stubber.boto3 "s3" = Return Stubber.s3_client
  /\ pages Stubber.s3_client "bucket-a" "logs/" 2 None Stubber.empty_page_then_keys
       Stubber.empty_page_then_keys_log ["logs/a"] (Return tt) []
  /\ (length Stubber.empty_page_then_keys_log <= 2)%nat
  /\ exists st',
       list_objects_s3 Stubber.boto3 2 "bucket-a" "logs/" 2
         (mkState Stubber.empty_page_then_keys [])
       = Some (Return ["logs/a"], st')
       /\ world st' = [].
Proof.
  assert (Hpages :
    pages Stubber.s3_client "bucket-a" "logs/" 2 None Stubber.empty_page_then_keys
      Stubber.empty_page_then_keys_log ["logs/a"] (Return tt) [])
    by play_pages.
  split; [reflexivity|]. split; [exact Hpages|]. split; [simpl; lia|].
  apply (proj1 (list_objects_s3_terminates Stubber.boto3 Stubber.s3_client
                  "bucket-a" "logs/" 2 eq_refl) _ _ _ _ _ [] Hpages).
  simpl; lia.
Defined.

(** ** Upload: the transfer configuration and the transfer *)

Section TransferParts.
Import S3Sim S3Transfer.
Variable chunk : nat.
Hypothesis chunk_pos : (1 <= chunk)%nat.

(** The parts put together are the file. *)
Lemma concat_split_parts fuel : forall data,
  (length data <= fuel)%nat -> concat (split_parts fuel chunk data) = data.
Proof.
  induction fuel as [|fuel IH]; intros data Hfuel.
  - destruct data; [done|simpl in Hfuel; lia].
  - destruct data as [|x data]; [done|].
    cbn [split_parts concat]. rewrite IH.
    + apply take_drop.
    + rewrite length_drop. simpl in *. lia.
Qed.

(** No part is empty and none is larger than the chunk size. *)
Lemma split_parts_sizes fuel : forall data,
  Forall (fun part => (1 <= length part <= chunk)%nat) (split_parts fuel chunk data).
Proof.
  induction fuel as [|fuel IH]; intros data; [constructor|].
  destruct data as [|x data]; [constructor|].
  cbn [split_parts]. constructor; [|apply IH].
  rewrite length_take. simpl. lia.
Qed.

Lemma split_parts_nil_inv fuel data :
  (length data <= fuel)%nat -> split_parts fuel chunk data = [] -> data = [].
Proof. destruct fuel, data; simpl; (done || lia). Qed.

(** Every part but the last is a full chunk. *)
Lemma split_parts_full fuel : forall data i part,
  (length data <= fuel)%nat ->
  split_parts fuel chunk data !! i = Some part ->
  (S i < length (split_parts fuel chunk data))%nat ->
  length part = chunk.
Proof.
  induction fuel as [|fuel IH]; intros data i part Hfuel Hpart Hi; [done|].
  destruct data as [|x data]; [done|].
  cbn [split_parts] in *.
  assert (Hrest : (length (drop chunk (x :: data)) <= fuel)%nat)
    by (rewrite length_drop; simpl in *; lia).
  destruct i as [|i].
  - injection Hpart as <-. rewrite length_take.
    destruct (split_parts fuel chunk (drop chunk (x :: data))) as [|q rest] eqn:Hsplit;
      [simpl in Hi; lia|].
    assert (drop chunk (x :: data) <> []).
    { intros Hnil. rewrite Hnil in Hsplit. by destruct fuel. }
    assert (0 < length (drop chunk (x :: data)))%nat
      by (destruct (drop chunk (x :: data)); [done|simpl; lia]).
    rewrite length_drop in *. lia.
  - apply (IH _ i part Hrest Hpart). simpl in Hi. lia.
Qed.

(** The number of parts is the size over the chunk size, rounded up. *)
Lemma length_split_parts fuel : forall data,
  (length data <= fuel)%nat ->
  length (split_parts fuel chunk data) = ((length data + chunk - 1) / chunk)%nat.
Proof.
  induction fuel as [|fuel IH]; intros data Hfuel.
  - destruct data; [|simpl in Hfuel; lia].
    simpl. symmetry. apply Nat.div_small. lia.
  - destruct data as [|x data].
    { simpl. symmetry. apply Nat.div_small. lia. }
    cbn [split_parts length]. rewrite IH by (rewrite length_drop; simpl in *; lia).
    rewrite length_drop. cbn [length].
    destruct (decide (S (length data) <= chunk)%nat) as [Hfew|Hmany].
    + replace (S (length data) - chunk)%nat with 0%nat by lia.
      rewrite (Nat.div_small (0 + chunk - 1)) by lia.
      symmetry. apply Nat.le_antisymm.
      * assert ((S (length data) + chunk - 1) / chunk < 2)%nat; [|lia].
        apply Nat.Div0.div_lt_upper_bound. lia.
      * apply Nat.div_le_lower_bound; lia.
    + replace (S (length data) + chunk - 1)%nat
        with ((S (length data) - chunk + chunk - 1) + 1 * chunk)%nat by lia.
      rewrite Nat.div_add by lia. lia.
Qed.

(** The service collects the parts in the order they are sent. *)
Lemma serve_upload_parts b k bodies : forall number w pending,
  fold_left serve (upload_parts b k number bodies) (w, pending)
  = (w, pending ++ bodies).
Proof.
  induction bodies as [|body bodies IH]; intros number w pending; simpl.
  - by rewrite app_nil_r.
  - rewrite IH. by rewrite <- app_assoc.
Qed.
End TransferParts.

Section TransferUpload.
Import S3Sim S3Transfer.

(** Either way the service ends up with the file under the key. *)
Lemma serve_transfer_requests cfg b k data w objects :
  (1 <= Z.to_nat (multipart_chunksize cfg))%nat ->
  buckets w !! b = Some objects ->
  fst (fold_left serve (transfer_requests cfg b k data) (w, []))
  = mkWorld (<[b := put k data objects]> (buckets w)) (files w).
Proof.
  intros Hchunk Hbucket. unfold transfer_requests.
  destruct (Z.of_nat (length data) <=? multipart_threshold cfg).
  - cbn [fold_left serve fst]. unfold store_object. by rewrite Hbucket.
  - cbn [fold_left serve]. rewrite fold_left_app, serve_upload_parts.
    cbn [fold_left serve fst app]. unfold store_object, parts.
    rewrite Hbucket, concat_split_parts; done.
Qed.

Lemma sim_transfer_upload_file cfg f b k data w objects sent :
  (1 <= Z.to_nat (multipart_chunksize cfg))%nat ->
  files w !! f = Some data ->
  buckets w !! b = Some objects ->
  upload_file S3Transfer.s3_client f b k cfg (w, sent)
  = (Return tt,
     (mkWorld (<[b := put k data objects]> (buckets w)) (files w),
      sent ++ transfer_requests cfg b k data)).
Proof.
  intros Hchunk Hfile Hbucket.
  cbn [upload_file S3Transfer.s3_client]. unfold transfer_upload_file.
  rewrite Hfile, Hbucket. by rewrite (serve_transfer_requests cfg b k data w objects).
Qed.

Lemma config_chunk_pos : (1 <= Z.to_nat (multipart_chunksize config))%nat.
Proof. unfold config. cbn [multipart_chunksize]. lia. Qed.
End TransferUpload.

(** C6, as stated, fails: the threshold and the chunk size are not the
    caller's to choose.  [upload_object_s3] has the SDK receive 8 MiB for
    both, and no call of it has the SDK receive anything else. *)
Lemma upload_threshold_not_configurable :
  transfer_configs
    (snd (world (snd (upload_object_s3 (boto3_with (recording Stubber.s3_client))
                        "bucket-a" "/tmp/big.bin" "big.bin"
                        (mkState ([Stubber.stub_upload_file (Return tt)], []) [])))))
  = [mkTransferConfig 8388608 8388608]
  /\ ~ (exists bucket_name file_path object_name answers out cfg,
          cfg <> mkTransferConfig 8388608 8388608
          /\ transfer_configs
               (snd (world (snd (upload_object_s3
                                   (boto3_with (recording Stubber.s3_client))
                                   bucket_name file_path object_name
                                   (mkState (answers, []) out)))))
             = [cfg]).
Proof.
  split; [reflexivity|].
  intros (bucket_name & file_path & object_name & q & out & cfg & Hcfg & H).
  destruct (upload_file Stubber.s3_client file_path bucket_name object_name config q)
    as [r q'] eqn:Hcall.
  rewrite (upload_object_s3_run (boto3_with (recording Stubber.s3_client))
             (recording Stubber.s3_client) eq_refl
             bucket_name file_path object_name (q, []) out r
             (q', [UploadFile file_path bucket_name object_name config r])) in H.
  - cbn [snd world transfer_configs] in H. injection H as <-. by apply Hcfg.
  - cbn [upload_file recording]. by rewrite Hcall.
Qed.

(** C6, amended: the chunk threshold and the chunk size are not parameters
    of [upload_object_s3]; it fixes both at 8 MiB (8388608 bytes).  Every
    call makes one [upload_file] request with this configuration.  With
    it, a file of at most 8 MiB is transferred in a single request, and a
    larger file is split into parts of 8 MiB, the last part holding the
    rest, and sent as a multipart transfer; either way the object stored is
    the file. *)
Theorem upload_object_s3_fixed_config :
  (forall (W : Type) (c : S3Client W) (bucket_name file_path object_name : string)
          (w : W) (out : list string),
      exists r w',
        upload_file c file_path bucket_name object_name
          (mkTransferConfig 8388608 8388608) w = (r, w')
        /\ upload_object_s3 (boto3_with (recording c)) bucket_name file_path
             object_name (mkState (w, []) out)
           = (Return tt,
              mkState (w', [UploadFile file_path bucket_name object_name
                              (mkTransferConfig 8388608 8388608) r])
                (out ++ upload_output bucket_name file_path object_name r)))
  /\ (forall (w : S3Sim.World) (bucket_name file_path object_name : string)
             (data : S3Sim.Data) (objects : list (string * S3Sim.Data))
             (out : list string),
         S3Sim.files w !! file_path = Some data ->
         S3Sim.buckets w !! bucket_name = Some objects ->
         let size := Z.of_nat (length data) in
         let bodies := S3Transfer.parts (Z.to_nat (8 * MiB)) data in
         upload_object_s3 S3Transfer.boto3 bucket_name file_path object_name
           (mkState (w, []) out)
         = (Return tt,
            mkState
              (S3Sim.mkWorld
                 (<[bucket_name := S3Sim.put object_name data objects]>
                    (S3Sim.buckets w))
                 (S3Sim.files w),
               if size <=? 8 * MiB
               then [S3Transfer.PutObject bucket_name object_name data]
               else
                 S3Transfer.CreateMultipartUpload bucket_name object_name
                 :: S3Transfer.upload_parts bucket_name object_name 1 bodies
                 ++ [S3Transfer.CompleteMultipartUpload bucket_name object_name
                       (length bodies)])
              (out ++ upload_output bucket_name file_path object_name (Return tt)))
         /\ concat bodies = data
         /\ Forall (fun part => 1 <= Z.of_nat (length part) <= 8 * MiB) bodies
         /\ (forall i part,
                bodies !! i = Some part ->
                (S i < length bodies)%nat ->
                Z.of_nat (length part) = 8 * MiB)
         /\ Z.of_nat (length bodies) = (size + (8 * MiB - 1)) / (8 * MiB)).
Proof.
  split.
  - intros W c bucket_name file_path object_name w out.
    destruct (upload_file c file_path bucket_name object_name config w)
      as [r w'] eqn:Hcall.
    exists r, w'. split; [exact Hcall|].
    apply (upload_object_s3_run (boto3_with (recording c)) (recording c) eq_refl).
    cbn [upload_file recording]. by rewrite Hcall.
  - intros w bucket_name file_path object_name data objects out Hfile Hbucket
      size bodies.
    assert (Hchunk : (1 <= Z.to_nat (8 * MiB))%nat) by (unfold MiB; lia).
    assert (Hbytes : Z.of_nat (Z.to_nat (8 * MiB)) = 8 * MiB) by (unfold MiB; lia).
    split; [|split; [|split; [|split]]].
    + apply (upload_object_s3_run S3Transfer.boto3 S3Transfer.s3_client eq_refl).
      apply (sim_transfer_upload_file config file_path bucket_name object_name data
               w objects [] config_chunk_pos Hfile Hbucket).
    + apply (concat_split_parts _ Hchunk). done.
    + eapply Forall_impl; [apply (split_parts_sizes _ Hchunk)|].
      intros part Hpart. cbv beta in Hpart. lia.
    + intros i part Hpart Hi.
      rewrite (split_parts_full _ Hchunk (length data) data i part); done.
    + unfold bodies, size, S3Transfer.parts.
      rewrite (length_split_parts _ Hchunk) by done.
      remember (Z.to_nat (8 * MiB)) as chunk eqn:Hdef. clear Hdef.
      rewrite Nat2Z.inj_div, <- Hbytes. f_equal. lia.
Qed.

Lemma upload_object_s3_fixed_config_witness :
  S3Sim.files S3Transfer.small_file_world !! "iris.joblib"
  = Some [Byte.x01; Byte.x02; Byte.x03; Byte.x04; Byte.x05]
  /\ S3Sim.buckets S3Transfer.small_file_world !! "bucket-a" = Some S3Sim.bucket_a
  /\ upload_object_s3 S3Transfer.boto3 "bucket-a" "iris.joblib"
       "new_test_folder_s3/iris.df" (mkState (S3Transfer.small_file_world, []) [])
     = (Return tt,
        mkState
          (S3Sim.mkWorld
             (<["bucket-a" :=
                  S3Sim.put "new_test_folder_s3/iris.df"
                    [Byte.x01; Byte.x02; Byte.x03; Byte.x04; Byte.x05]
                    S3Sim.bucket_a]>
                (S3Sim.buckets S3Transfer.small_file_world))
             (S3Sim.files S3Transfer.small_file_world),
           [S3Transfer.PutObject "bucket-a" "new_test_folder_s3/iris.df"
              [Byte.x01; Byte.x02; Byte.x03; Byte.x04; Byte.x05]])
          ([] ++ upload_output "bucket-a" "iris.joblib" "new_test_folder_s3/iris.df"
                   (Return tt))).
Proof.
  assert (Hfile :
    S3Sim.files S3Transfer.small_file_world !! "iris.joblib"
    = Some [Byte.x01; Byte.x02; Byte.x03; Byte.x04; Byte.x05]) by reflexivity.
  assert (Hbucket :
    S3Sim.buckets S3Transfer.small_file_world !! "bucket-a" = Some S3Sim.bucket_a)
    by reflexivity.
  split; [exact Hfile|]. split; [exact Hbucket|].
  apply (proj1 (proj2 upload_object_s3_fixed_config
                  S3Transfer.small_file_world "bucket-a" "iris.joblib"
                  "new_test_folder_s3/iris.df" _ _ [] Hfile Hbucket)).
Defined.

(** ** Listing against the in-memory store *)

Section SimListing.
Import S3Sim.

Lemma decode_encode_token position :
  decode_token (Some (encode_token position)) = Some position.
Proof.
  unfold decode_token, encode_token.
  rewrite Ascii.eqb_refl, NilEmpty.usu. simpl. f_equal.
  apply DecimalNat.Unsigned.of_to.
Qed.

Lemma truthy_encode_token position : truthy (Some (encode_token position)) = true.
Proof. reflexivity. Qed.

Lemma page_limit_pos m : 1 <= m -> (1 <= page_limit m)%nat.
Proof. unfold page_limit. lia. Qed.

Lemma page_count_one limit remaining :
  (1 <= limit)%nat -> (remaining <= limit)%nat -> page_count limit remaining = 1%nat.
Proof.
  intros Hl Hr. unfold page_count.
  assert ((remaining + limit - 1) / limit < 2)%nat; [|lia].
  apply Nat.Div0.div_lt_upper_bound. lia.
Qed.

Lemma page_count_more limit remaining :
  (1 <= limit)%nat -> (limit < remaining)%nat ->
  page_count limit remaining = S (page_count limit (remaining - limit)).
Proof.
  intros Hl Hr. unfold page_count.
  replace (remaining + limit - 1)%nat with (remaining - 1 + 1 * limit)%nat by lia.
  replace (remaining - limit + limit - 1)%nat with (remaining - 1)%nat by lia.
  rewrite Nat.div_add by lia.
  assert (1 <= (remaining - 1) / limit)%nat; [|lia].
  apply Nat.div_le_lower_bound; lia.
Qed.

Lemma page_count_le limit remaining :
  (1 <= limit)%nat -> (page_count limit remaining <= Nat.max 1 remaining)%nat.
Proof.
  intros Hl. unfold page_count.
  assert ((remaining + limit - 1) / limit <= Nat.max 1 remaining)%nat; [|lia].
  apply Nat.Div0.div_le_upper_bound.
  destruct remaining as [|remaining]; [lia|].
  rewrite Nat.max_r by lia. nia.
Qed.

Lemma page_keys_describe (page : list (string * Data)) token :
  page_keys
    (mkOutput (match page with [] => None | _ => Some (map describe page) end) token)
  = map fst page.
Proof.
  unfold page_keys. destruct page as [|o page]; [done|].
  cbn [Contents]. by rewrite map_map.
Qed.

Variables (w : World) (b pre : string) (objects : list (string * Data)) (m : Z).
Hypothesis bucket_exists : buckets w !! b = Some objects.
Hypothesis page_size_pos : 1 <= m.

(** One request, from the position its token encodes. *)
Lemma sim_page token position :
  decode_token token = Some position ->
  let found := matching pre objects in
  let page := take (page_limit m) (drop position found) in
  list_objects_v2 s3_client (mkRequest b pre m token) w
  = (Return
       (mkOutput
          (match page with [] => None | _ => Some (map describe page) end)
          (if (0 <? length page)%nat && (position + length page <? length found)%nat
           then Some (encode_token (position + length page)) else None)),
     w).
Proof.
  intros Hdecode. cbn [list_objects_v2 s3_client]. unfold sim_list_objects_v2.
  cbn [Bucket Prefix MaxKeys ContinuationToken].
  rewrite bucket_exists, Hdecode.
  destruct (Z.ltb_spec m 0); [lia|done].
Qed.

(** The store serves the keys with the prefix that lie after a position
    in finitely many pages. *)
Lemma sim_pages_from n : forall token position,
  decode_token token = Some position ->
  (length (matching pre objects) - position <= n)%nat ->
  exists log,
    pages s3_client b pre m token w log
      (map fst (drop position (matching pre objects))) (Return tt) w
    /\ length log
       = page_count (page_limit m) (length (matching pre objects) - position).
Proof.
  pose proof (page_limit_pos m page_size_pos) as Hlimit.
  induction n as [|n IH]; intros token position Hdecode Hn;
    pose proof (sim_page token position Hdecode) as Hcall; cbn zeta in Hcall;
    set (found := matching pre objects) in *;
    set (page := take (page_limit m) (drop position found)) in *;
    assert (Hlen : length page
                   = Nat.min (page_limit m) (length found - position))
      by (unfold page; by rewrite length_take, length_drop).
  - (* nothing left *)
    assert (Hpage : page = []) by (apply length_zero_iff_nil; lia).
    assert (Hrest : drop position found = [])
      by (apply length_zero_iff_nil; rewrite length_drop; lia).
    rewrite Hpage in Hcall. cbn in Hcall.
    eexists. split.
    + rewrite Hrest. eapply pages_last_eq; [reflexivity|exact Hcall|done|done].
    + rewrite page_count_one by lia. done.
  - destruct (decide (length found - position <= page_limit m)%nat) as [Hfew|Hmany].
    + (* the last page *)
      assert (Hpage : page = drop position found).
      { unfold page. apply take_ge. rewrite length_drop. lia. }
      replace ((0 <? length page)%nat
               && (position + length page <? length found)%nat) with false in Hcall.
      2:{ symmetry. apply andb_false_iff. right. apply Nat.ltb_ge. lia. }
      eexists. split.
      * eapply pages_last_eq; [reflexivity|exact Hcall|done|].
        by rewrite page_keys_describe, Hpage.
      * rewrite page_count_one by lia. done.
    + (* a full page and a token for the rest *)
      replace ((0 <? length page)%nat
               && (position + length page <? length found)%nat) with true in Hcall.
      2:{ symmetry. apply andb_true_iff. split; apply Nat.ltb_lt; lia. }
      destruct (IH (Some (encode_token (position + length page)))
                  (position + length page)%nat) as (log & Hpages & Hcount).
      { apply decode_encode_token. }
      { fold found. lia. }
      eexists. split.
      * eapply pages_more_eq; [reflexivity|exact Hcall|done| |exact Hpages].
        rewrite page_keys_describe. fold found. rewrite <- map_app. f_equal.
        rewrite Hlen, Nat.min_l by lia. unfold page.
        rewrite <- (take_drop (page_limit m) (drop position found)) at 1.
        by rewrite drop_drop.
      * cbn [length]. rewrite Hcount. fold found.
        rewrite (page_count_more (page_limit m) (length found - position)) by lia.
        do 2 f_equal. lia.
Qed.

(** The exchanges of a whole listing. *)
Lemma sim_pages :
  exists log,
    pages s3_client b pre m None w log (matching_keys pre objects) (Return tt) w
    /\ length log = page_count (page_limit m) (length (matching_keys pre objects)).
Proof.
  destruct (sim_pages_from (length (matching pre objects)) None 0%nat)
    as (log & Hpages & Hcount); [done|lia|].
  exists log. unfold matching_keys. rewrite length_map.
  rewrite Nat.sub_0_r in Hcount. by rewrite drop_0 in Hpages.
Qed.
End SimListing.

Section SimClaims.
Import S3Sim.

(** C1: pagination transparency.  For a bucket of the store and every
    page size of at least 1, [list_objects_s3] returns exactly the keys
    of the bucket that have the prefix, in listing order, once the fuel
    exceeds their number; nothing is printed and the store is as before.
    The value returned is the same for any two page sizes. *)
Theorem list_objects_s3_pagination_transparent (w : World) (b pre : string)
    (objects : list (string * Data)) (m m' : Z) (out : list string) (fuel : nat) :
  buckets w !! b = Some objects ->
  1 <= m ->
  1 <= m' ->
  (length (matching_keys pre objects) < fuel)%nat ->
  list_objects_s3 boto3 fuel b pre m (mkState w out)
  = Some (Return (matching_keys pre objects), mkState w out)
  /\ list_objects_s3 boto3 fuel b pre m' (mkState w out)
     = list_objects_s3 boto3 fuel b pre m (mkState w out).
Proof.
  intros Hbucket Hm Hm' Hfuel.
  assert (Hrun : forall k, 1 <= k ->
    list_objects_s3 boto3 fuel b pre k (mkState w out)
    = Some (Return (matching_keys pre objects), mkState w out)).
  { intros k Hk.
    destruct (sim_pages w b pre objects k Hbucket Hk) as (log & Hpages & Hcount).
    rewrite (list_objects_s3_pages s3_client b pre k boto3 w log
               (matching_keys pre objects) (Return tt) w out fuel eq_refl Hpages).
    - cbn [listing_output]. by rewrite app_nil_r.
    - rewrite Hcount.
      pose proof (page_count_le (page_limit k)
                    (length (matching_keys pre objects)) (page_limit_pos k Hk)).
      lia. }
  split; [by apply Hrun|]. by rewrite !Hrun.
Qed.

Lemma list_objects_s3_pagination_transparent_witness :
  buckets example_world !! "bucket-a" = Some bucket_a
  /\ 1 <= 2
  /\ 1 <= default_max_keys
  /\ (length (matching_keys "logs/" bucket_a) < 6)%nat
  /\ (list_objects_s3 boto3 6 "bucket-a" "logs/" 2 (mkState example_world [])
      = Some (Return (matching_keys "logs/" bucket_a), mkState example_world [])
      /\ list_objects_s3 boto3 6 "bucket-a" "logs/" default_max_keys
           (mkState example_world [])
         = list_objects_s3 boto3 6 "bucket-a" "logs/" 2 (mkState example_world [])).
Proof.
  assert (Hbucket : buckets example_world !! "bucket-a" = Some bucket_a)
    by reflexivity.
  split; [exact Hbucket|]. split; [lia|].
  split; [unfold default_max_keys; lia|]. split; [simpl; lia|].
  apply (list_objects_s3_pagination_transparent example_world "bucket-a" "logs/"
           bucket_a 2 default_max_keys [] 6 Hbucket);
    [lia | unfold default_max_keys; lia | simpl; lia].
Defined.

(** C5: listing a bucket that is empty, or has no key with the prefix,
    returns the empty list; no error is raised and none is printed. *)
Theorem list_objects_s3_no_match_empty (w : World) (b pre : string)
    (objects : list (string * Data)) (m : Z) (out : list string) (fuel : nat) :
  buckets w !! b = Some objects ->
  matching_keys pre objects = [] ->
  1 <= m ->
  (1 <= fuel)%nat ->
  list_objects_s3 boto3 fuel b pre m (mkState w out)
  = Some (Return [], mkState w out).
Proof.
  intros Hbucket Hnone Hm Hfuel.
  destruct (sim_pages w b pre objects m Hbucket Hm) as (log & Hpages & Hcount).
  rewrite Hnone in Hpages, Hcount.
  rewrite (list_objects_s3_pages s3_client b pre m boto3 w log [] (Return tt) w
             out fuel eq_refl Hpages).
  - cbn [listing_output]. by rewrite app_nil_r.
  - rewrite Hcount, page_count_one; [done|by apply page_limit_pos|simpl; lia].
Qed.

Lemma list_objects_s3_no_match_empty_witness :
  buckets example_world !! "bucket-empty" = Some []
  /\ matching_keys "logs/" [] = []
  /\ 1 <= default_max_keys
  /\ (1 <= 1)%nat
  /\ list_objects_s3 boto3 1 "bucket-empty" "logs/" default_max_keys
       (mkState example_world [])
     = Some (Return [], mkState example_world []).
Proof.
  assert (Hbucket : buckets example_world !! "bucket-empty" = Some [])
    by reflexivity.
  split; [exact Hbucket|]. split; [reflexivity|].
  split; [unfold default_max_keys; lia|]. split; [lia|].
  apply (list_objects_s3_no_match_empty example_world "bucket-empty" "logs/" []
           default_max_keys [] 1 Hbucket);
    [reflexivity | unfold default_max_keys; lia | lia].
Defined.

(** C7: with five keys under the prefix and a page size of 2, the call
    returns the five keys in listing order and the client receives
    exactly three page requests. *)
Theorem list_five_keys_in_three_requests (w : World) (b pre : string)
    (objects : list (string * Data)) (out : list string) (fuel : nat) :
  buckets w !! b = Some objects ->
  length (matching_keys pre objects) = 5%nat ->
  (3 <= fuel)%nat ->
  exists log,
    list_objects_s3 recorded_boto3 fuel b pre 2 (mkState (w, []) out)
    = Some (Return (matching_keys pre objects), mkState (w, log) out)
    /\ length log = 3%nat
    /\ chained b pre 2 None log.
Proof.
  intros Hbucket Hfive Hfuel.
  destruct (sim_pages w b pre objects 2 Hbucket ltac:(lia))
    as (log & Hpages & Hcount).
  rewrite Hfive in Hcount. change (page_count (page_limit 2) 5) with 3%nat in Hcount.
  exists log. split; [|split].
  - rewrite (list_objects_s3_pages (recording s3_client) b pre 2 recorded_boto3
               (w, []) log (matching_keys pre objects) (Return tt) (w, log)
               out fuel eq_refl).
    + cbn [listing_output]. by rewrite app_nil_r.
    + apply (pages_recording s3_client b pre 2 None w log _ _ w Hpages []).
    + lia.
  - exact Hcount.
  - by eapply pages_chained.
Qed.

Lemma list_five_keys_in_three_requests_witness :
  buckets example_world !! "bucket-a" = Some bucket_a
  /\ length (matching_keys "logs/" bucket_a) = 5%nat
  /\ (3 <= 3)%nat
  /\ exists log,
       list_objects_s3 recorded_boto3 3 "bucket-a" "logs/" 2
         (mkState (example_world, []) [])
       = Some (Return (matching_keys "logs/" bucket_a),
               mkState (example_world, log) [])
       /\ length log = 3%nat
       /\ chained "bucket-a" "logs/" 2 None log.
Proof.
  assert (Hbucket : buckets example_world !! "bucket-a" = Some bucket_a)
    by reflexivity.
  split; [exact Hbucket|]. split; [reflexivity|]. split; [lia|].
  apply (list_five_keys_in_three_requests example_world "bucket-a" "logs/"
           bucket_a [] 3 Hbucket); [reflexivity | lia].
Defined.
End SimClaims.

(** ** Download and delete against the in-memory store *)

Section SimObjects.
Import S3Sim.

(** C8, as stated, fails: downloading a key that does not exist raises
    no error to the caller.  The call returns [None], and the cause is
    in a printed line. *)
Lemma missing_key_download_not_raised :
  download_object_s3 boto3 "bucket-a" "missing-key" "/tmp/x"
    (mkState example_world [])
  = (Return tt,
     mkState example_world
       [ "Downloading missing-key from bucket bucket-a to /tmp/x...";
         "Exception downloading object: An error occurred (404) when calling the HeadObject operation: Not Found" ])
  /\ ~ surfaces_error
         (fst (download_object_s3 boto3 "bucket-a" "missing-key" "/tmp/x"
                 (mkState example_world []))).
Proof.
  split; [reflexivity|]. intros [e He]. vm_compute in He. discriminate.
Qed.

(** C8, amended: downloading a key that does not exist raises nothing
    and returns [None]; the not-found cause is only printed, in the line
    "Exception downloading object: ..."; no local file is created or
    changed. *)
Theorem download_missing_key (w : World) (b k path : string) (out : list string) :
  lookup_object w b k = None ->
  download_object_s3 boto3 b k path (mkState w out)
  = (Return tt,
     mkState w
       (out ++ [ "Downloading " +:+ k +:+ " from bucket " +:+ b +:+ " to "
                 +:+ path +:+ "...";
                 "Exception downloading object: An error occurred (404) when calling the HeadObject operation: Not Found" ]))
  /\ files (world (snd (download_object_s3 boto3 b k path (mkState w out))))
     = files w.
Proof.
  intros Hmissing.
  assert (Hcall : download_file s3_client b k path w = (Raise not_found, w)).
  { cbn [download_file s3_client]. unfold sim_download_file. by rewrite Hmissing. }
  rewrite (download_object_s3_run boto3 s3_client eq_refl b k path w out
             (Raise not_found) w Hcall).
  split; reflexivity.
Qed.

Lemma download_missing_key_witness :
  lookup_object example_world "bucket-a" "missing-key" = None
  /\ (download_object_s3 boto3 "bucket-a" "missing-key" "/tmp/x"
        (mkState example_world [])
      = (Return tt,
         mkState example_world
           ([] ++ [ "Downloading " +:+ "missing-key" +:+ " from bucket "
                    +:+ "bucket-a" +:+ " to " +:+ "/tmp/x" +:+ "...";
                    "Exception downloading object: An error occurred (404) when calling the HeadObject operation: Not Found" ]))
      /\ files (world (snd (download_object_s3 boto3 "bucket-a" "missing-key"
                              "/tmp/x" (mkState example_world []))))
         = files example_world).
Proof.
  assert (Hmissing : lookup_object example_world "bucket-a" "missing-key" = None)
    by reflexivity.
  split; [exact Hmissing|].
  apply (download_missing_key example_world "bucket-a" "missing-key" "/tmp/x" []
           Hmissing).
Defined.

Lemma remove_remove key (objects : list (string * Data)) :
  remove key (remove key objects) = remove key objects.
Proof.
  unfold remove. induction objects as [|o objects IH]; [done|].
  cbn [List.filter]. destruct (negb (fst o =? key)%string) eqn:Ho; [|done].
  cbn [List.filter]. by rewrite Ho, IH.
Qed.

Lemma find_remove key (objects : list (string * Data)) :
  List.find (fun o => (fst o =? key)%string) (remove key objects) = None.
Proof.
  unfold remove. induction objects as [|o objects IH]; [done|].
  cbn [List.filter]. destruct (fst o =? key)%string eqn:Ho; [done|].
  cbn [negb List.find]. by rewrite Ho.
Qed.

(** C9: delete is idempotent.  For a bucket of the store and every key,
    whether the bucket holds it or not, two calls of [delete_object_s3]
    in succession both return without an error and both print the
    success line; after the first call the key is gone, and the second
    call leaves the store as the first left it. *)
Theorem delete_object_s3_idempotent (w : World) (b k : string)
    (objects : list (string * Data)) (out : list string) :
  buckets w !! b = Some objects ->
  exists w1,
    delete_object_s3 boto3 b k (mkState w out)
    = (Return tt, mkState w1 (out ++ delete_output b k (Return tt)))
    /\ delete_object_s3 boto3 b k
         (mkState w1 (out ++ delete_output b k (Return tt)))
       = (Return tt,
          mkState w1 ((out ++ delete_output b k (Return tt))
                      ++ delete_output b k (Return tt)))
    /\ lookup_object w1 b k = None.
Proof.
  intros Hbucket.
  exists (mkWorld (<[b := remove k objects]> (buckets w)) (files w)).
  split; [|split].
  - apply (delete_object_s3_run boto3 s3_client eq_refl).
    cbn [delete_object s3_client]. unfold sim_delete_object. by rewrite Hbucket.
  - apply (delete_object_s3_run boto3 s3_client eq_refl).
    cbn [delete_object s3_client]. unfold sim_delete_object. cbn [buckets files].
    by rewrite lookup_insert_eq, insert_insert_eq, remove_remove.
  - unfold lookup_object. cbn [buckets].
    rewrite lookup_insert_eq. cbn. by rewrite find_remove.
Qed.

Lemma delete_object_s3_idempotent_witness :
  buckets example_world !! "bucket-a" = Some bucket_a
  /\ exists w1,
       delete_object_s3 boto3 "bucket-a" "logs/2024-01-03.log"
         (mkState example_world [])
       = (Return tt,
          mkState w1
            ([] ++ delete_output "bucket-a" "logs/2024-01-03.log" (Return tt)))
       /\ delete_object_s3 boto3 "bucket-a" "logs/2024-01-03.log"
            (mkState w1
               ([] ++ delete_output "bucket-a" "logs/2024-01-03.log" (Return tt)))
          = (Return tt,
             mkState w1
               (([] ++ delete_output "bucket-a" "logs/2024-01-03.log" (Return tt))
                ++ delete_output "bucket-a" "logs/2024-01-03.log" (Return tt)))
       /\ lookup_object w1 "bucket-a" "logs/2024-01-03.log" = None.
Proof.
  assert (Hbucket : buckets example_world !! "bucket-a" = Some bucket_a)
    by reflexivity.
  split; [exact Hbucket|].
  apply (delete_object_s3_idempotent example_world "bucket-a"
           "logs/2024-01-03.log" bucket_a [] Hbucket).
Defined.
End SimObjects.


(** * Further properties of the listing loop *)

Section ListingRuns.
Context {W : Type}.
Variable c : S3Client W.
Variables (b p : string) (m : Z).

(** Every run of the loop that ends is a run of the protocol. *)
Lemma list_loop_sound fuel : forall l w r l' w',
  list_loop fuel c b p m l w = Some (r, l', w') ->
  exists log keys,
    pages c b p m (sent_token (continuation_token l)) w log keys r w'
    /\ object_keys l' = object_keys l ++ keys
    /\ (length log <= fuel)%nat.
Proof.
  induction fuel as [|fuel IH]; intros l w r l' w' Hrun; [discriminate|].
  simpl in Hrun. rewrite page_request_sent in Hrun.
  destruct (list_objects_v2 c (mkRequest b p m (sent_token (continuation_token l))) w)
    as [[rs|e] w1] eqn:Hcall.
  - rewrite extend_page_keys in Hrun.
    destruct (truthy (NextContinuationToken rs)) eqn:Hmore; simpl in Hrun.
    + apply IH in Hrun as (log & keys & Hpages & Hkeys & Hlen).
      cbn [continuation_token object_keys] in *.
      rewrite (sent_token_truthy _ Hmore) in Hpages.
      eexists _, _. split; [eapply pages_more; eauto|].
      split; [by rewrite Hkeys, app_assoc|simpl; lia].
    + injection Hrun as <- <- <-.
      eexists _, _. split; [eapply pages_last; eauto|].
      split; [done|simpl; lia].
  - injection Hrun as <- <- <-.
    eexists _, _. split; [eapply pages_fail; eauto|].
    split; [by rewrite app_nil_r|simpl; lia].
Qed.

(** More fuel does not change the outcome of a loop that has ended. *)
Lemma list_loop_more_fuel fuel : forall fuel' l w x,
  list_loop fuel c b p m l w = Some x ->
  (fuel <= fuel')%nat ->
  list_loop fuel' c b p m l w = Some x.
Proof.
  induction fuel as [|fuel IH]; intros fuel' l w x Hrun Hle; [discriminate|].
  destruct fuel' as [|fuel']; [lia|].
  simpl in *.
  destruct (list_objects_v2 c (page_request b p m (continuation_token l)) w)
    as [[rs|e] w1]; [|done].
  destruct (negb (truthy (NextContinuationToken rs))); [done|].
  apply IH; [done|lia].
Qed.

(** What the recording client logs is what the protocol went through. *)
Lemma pages_recording_log token w0 log keys r w1 :
  pages (recording c) b p m token w0 log keys r w1 ->
  snd w1 = snd w0 ++ log
  /\ pages c b p m token (fst w0) log keys r (fst w1).
Proof.
  induction 1 as [token [w log0] e [w' log1] Hcall
                 | token [w log0] rs [w' log1] Hcall Hlast
                 | token [w log0] rs [w1' log1] log keys r [w' log2] Hcall Hmore _ IH];
    cbn [fst snd list_objects_v2 recording] in *;
    destruct (list_objects_v2 c (mkRequest b p m token) w) as [r0 wx] eqn:Hc;
    injection Hcall as -> -> <-.
  - split; [done|]. by apply pages_fail.
  - split; [done|]. by apply pages_last.
  - destruct IH as [-> IH]. split; [by rewrite <- app_assoc|].
    eapply pages_more; eauto.
Qed.

Lemma log_keys_app log1 log2 :
  log_keys (log1 ++ log2) = log_keys log1 ++ log_keys log2.
Proof.
  induction log1 as [|[rq [rs|e]| | |] log1 IH]; simpl; rewrite ?IH; try done.
  by rewrite app_assoc.
Qed.

Lemma pages_only_list_requests token w log keys r w' :
  pages c b p m token w log keys r w' ->
  forallb is_list_request log = true.
Proof. induction 1; simpl; auto. Qed.

(** Tokens sent after the first request are never empty. *)
Lemma pages_sent_tokens token w log keys r w' :
  pages c b p m token w log keys r w' ->
  exists later,
    sent_tokens log = token :: later
    /\ Forall (fun t => truthy t = true) later.
Proof.
  induction 1 as [| |token w rs w1 log keys r w' Hcall Hmore _ IH]; simpl.
  - by exists [].
  - by exists [].
  - destruct IH as (later & -> & Hlater).
    exists (NextContinuationToken rs :: later). split; [done|].
    by constructor.
Qed.

(** With the client out of answers after [n] requests, the protocol ends
    in the failure, with the keys of the first [n] pages. *)
Lemma pages_failing_after e token w log keys r w' :
  pages c b p m token w log keys r w' ->
  forall n, (n < length log)%nat ->
    exists log' w'',
      pages (failing_after e c) b p m token (w, n) log'
        (log_keys (take n log)) (Raise e) w''
      /\ length log' = S n.
Proof.
  induction 1 as [token w e0 w' Hcall | token w rs w' Hcall Hlast
                 | token w rs w1 log keys r w' Hcall Hmore _ IH];
    intros n Hn.
  - destruct n; [|simpl in Hn; lia].
    eexists _, _. split; [apply pages_fail; reflexivity|done].
  - destruct n; [|simpl in Hn; lia].
    eexists _, _. split; [apply pages_fail; reflexivity|done].
  - destruct n as [|n].
    + eexists _, _. split; [apply pages_fail; reflexivity|done].
    + destruct (IH n) as (log' & w'' & Hpages & Hlen); [simpl in Hn; lia|].
      eexists _, _. split.
      * cbn [take log_keys]. eapply pages_more; [|exact Hmore|exact Hpages].
        cbn [list_objects_v2 failing_after]. by rewrite Hcall.
      * simpl. by rewrite Hlen.
Qed.
End ListingRuns.

(** X1: every call of [list_objects_s3] that returns has followed the
    protocol, whatever the client answers: the value is a list, never an
    exception; the client has received page requests only, at most one per
    unit of fuel, chained by their tokens; and the list is the keys of the
    pages received, in their order. *)
Theorem list_objects_s3_run_follows_protocol {W} (c : S3Client W)
    (b p : string) (m : Z) (w : W) (out : list string) (fuel : nat)
    (r : result (list string)) (st' : State (W * list Exchange)) :
  list_objects_s3 (boto3_with (recording c)) fuel b p m (mkState (w, []) out)
  = Some (r, st') ->
  r = Return (log_keys (snd (world st')))
  /\ chained b p m None (snd (world st'))
  /\ forallb is_list_request (snd (world st')) = true
  /\ (0 < length (snd (world st')) <= fuel)%nat.
Proof.
  intros Hret. unfold list_objects_s3 in Hret.
  cbn [client boto3_with world stdout] in Hret.
  destruct (list_loop fuel (recording c) b p m _ (w, [])) as [[[r0 l'] w1]|] eqn:Hrun;
    [|discriminate].
  apply list_loop_sound in Hrun as (log & keys & Hpages & Hkeys & Hlen).
  cbn [continuation_token object_keys sent_token truthy app] in *.
  pose proof (pages_recording_log c b p m _ _ _ _ _ _ Hpages) as [Hlog Hpages'].
  cbn [fst snd app] in Hlog.
  assert (Hshape : r = Return (object_keys l') /\ snd (world st') = log).
  { destruct r0; injection Hret as <- <-; cbn [world snd]; done. }
  destruct Hshape as [-> ->]. rewrite Hkeys.
  split; [f_equal; by eapply pages_log_keys|].
  split; [by eapply pages_chained|].
  split; [by eapply pages_only_list_requests|].
  split; [by eapply pages_nonempty|done].
Qed.

Lemma list_objects_s3_run_follows_protocol_witness :
  list_objects_s3 (boto3_with (recording Stubber.s3_client)) 7 "bucket-a" "logs/" 2
    (mkState (Stubber.drops_on_third_page, []) [])
  = Some (Return ["logs/a"; "logs/b"; "logs/c"; "logs/d"],
          mkState ([], Stubber.drops_on_third_page_log)
            ["Error listing objects: Could not connect to the endpoint URL"])
  /\ (Return ["logs/a"; "logs/b"; "logs/c"; "logs/d"]
      = Return (log_keys Stubber.drops_on_third_page_log)
      /\ chained "bucket-a" "logs/" 2 None Stubber.drops_on_third_page_log
      /\ forallb is_list_request Stubber.drops_on_third_page_log = true
      /\ (0 < length Stubber.drops_on_third_page_log <= 7)%nat).
Proof.
  assert (Hrun :
    list_objects_s3 (boto3_with (recording Stubber.s3_client)) 7 "bucket-a" "logs/" 2
      (mkState (Stubber.drops_on_third_page, []) [])
    = Some (Return ["logs/a"; "logs/b"; "logs/c"; "logs/d"],
            mkState ([], Stubber.drops_on_third_page_log)
              ["Error listing objects: Could not connect to the endpoint URL"]))
    by reflexivity.
  split; [exact Hrun|].
  apply (list_objects_s3_run_follows_protocol Stubber.s3_client "bucket-a" "logs/" 2
           Stubber.drops_on_third_page [] 7 _ _ Hrun).
Defined.

(** A call of [list_objects_s3] that has returned within some number
    of loop iterations returns the same value and state when more are
    allowed: the bound on the iterations is not observable. *)
Theorem list_objects_s3_more_fuel {W} (boto3 : Boto3 W) (b p : string) (m : Z)
    (st : State W) (fuel fuel' : nat) (x : result (list string) * State W) :
  list_objects_s3 boto3 fuel b p m st = Some x ->
  (fuel <= fuel')%nat ->
  list_objects_s3 boto3 fuel' b p m st = Some x.
Proof.
  unfold list_objects_s3. intros Hrun Hle.
  destruct (client boto3 "s3") as [c|e]; [|done].
  destruct (list_loop fuel c b p m _ (world st)) as [y|] eqn:Hloop; [|discriminate].
  by rewrite (list_loop_more_fuel c b p m fuel fuel' _ _ y Hloop Hle).
Qed.

Lemma list_objects_s3_more_fuel_witness :
  list_objects_s3 Stubber.boto3 3 "bucket-a" "logs/" 2 (mkState Stubber.three_pages [])
  = Some (Return ["logs/a"; "logs/b"; "logs/c"; "logs/d"; "logs/e"], mkState [] [])
  /\ (3 <= 50)%nat
  /\ list_objects_s3 Stubber.boto3 50 "bucket-a" "logs/" 2
       (mkState Stubber.three_pages [])
     = Some (Return ["logs/a"; "logs/b"; "logs/c"; "logs/d"; "logs/e"], mkState [] []).
Proof.
  assert (Hrun :
    list_objects_s3 Stubber.boto3 3 "bucket-a" "logs/" 2
      (mkState Stubber.three_pages [])
    = Some (Return ["logs/a"; "logs/b"; "logs/c"; "logs/d"; "logs/e"], mkState [] []))
    by reflexivity.
  split; [exact Hrun|]. split; [lia|].
  apply (list_objects_s3_more_fuel Stubber.boto3 "bucket-a" "logs/" 2 _ 3 50 _ Hrun).
  lia.
Defined.

(** X2: [list_objects_s3] never sends an empty continuation token.  Its
    first request carries no token, and every later request carries a
    token that is a non-empty string. *)
Theorem list_objects_s3_never_sends_empty_token {W} (c : S3Client W)
    (b p : string) (m : Z) (w : W) (out : list string) (fuel : nat)
    (r : result (list string)) (st' : State (W * list Exchange)) :
  list_objects_s3 (boto3_with (recording c)) fuel b p m (mkState (w, []) out)
  = Some (r, st') ->
  exists later,
    sent_tokens (snd (world st')) = None :: later
    /\ Forall (fun t => exists s, t = Some s /\ s <> EmptyString) later.
Proof.
  intros Hret. unfold list_objects_s3 in Hret.
  cbn [client boto3_with world stdout] in Hret.
  destruct (list_loop fuel (recording c) b p m _ (w, [])) as [[[r0 l'] w1]|] eqn:Hrun;
    [|discriminate].
  apply list_loop_sound in Hrun as (log & keys & Hpages & _ & _).
  cbn [continuation_token sent_token truthy] in Hpages.
  pose proof (pages_recording_log c b p m _ _ _ _ _ _ Hpages) as [Hlog Hpages'].
  cbn [fst snd app] in Hlog.
  assert (Hshape : snd (world st') = log)
    by (destruct r0; injection Hret as <- <-; cbn [world snd]; done).
  rewrite Hshape.
  destruct (pages_sent_tokens c b p m _ _ _ _ _ _ Hpages') as (later & -> & Hlater).
  exists later. split; [done|].
  eapply Forall_impl; [exact Hlater|].
  intros [s|] Ht; [|discriminate]. exists s. split; [done|].
  intros ->. discriminate.
Qed.

Lemma list_objects_s3_never_sends_empty_token_witness :
  list_objects_s3 (boto3_with (recording Stubber.s3_client)) 3 "bucket-a" "logs/" 2
    (mkState (Stubber.three_pages, []) [])
  = Some (Return ["logs/a"; "logs/b"; "logs/c"; "logs/d"; "logs/e"],
          mkState ([], Stubber.three_pages_log) [])
  /\ exists later,
       sent_tokens Stubber.three_pages_log = None :: later
       /\ Forall (fun t => exists s, t = Some s /\ s <> EmptyString) later.
Proof.
  assert (Hrun :
    list_objects_s3 (boto3_with (recording Stubber.s3_client)) 3 "bucket-a" "logs/" 2
      (mkState (Stubber.three_pages, []) [])
    = Some (Return ["logs/a"; "logs/b"; "logs/c"; "logs/d"; "logs/e"],
            mkState ([], Stubber.three_pages_log) []))
    by reflexivity.
  split; [exact Hrun|].
  apply (list_objects_s3_never_sends_empty_token Stubber.s3_client "bucket-a" "logs/"
           2 Stubber.three_pages [] 3 _ _ Hrun).
Defined.

(** X3: a listing cut short is a prefix of the whole listing.  When the
    service would answer a listing with the pages of [log] but stops
    answering after [n] of them, [list_objects_s3] returns the keys of the
    first [n] pages, which are the first keys of the complete listing in
    the same order, and prints the error once. *)
Theorem list_objects_s3_partial_is_prefix {W} (c : S3Client W) (e : PyException)
    (b p : string) (m : Z) (w w' : W) (log : list Exchange) (keys out : list string)
    (r : result unit) (n fuel : nat) :
  pages c b p m None w log keys r w' ->
  (n < length log)%nat ->
  (n < fuel)%nat ->
  exists st',
    list_objects_s3 (boto3_with (failing_after e c)) fuel b p m (mkState (w, n) out)
    = Some (Return (log_keys (take n log)), st')
    /\ stdout st' = out ++ ["Error listing objects: " +:+ exc_str e]
    /\ log_keys (take n log) `prefix_of` keys.
Proof.
  intros Hpages Hn Hfuel.
  destruct (pages_failing_after c b p m e _ _ _ _ _ _ Hpages n Hn)
    as (log' & w'' & Hfail & Hlen).
  eexists. split; [|split].
  - apply (list_objects_s3_pages (failing_after e c) b p m
             (boto3_with (failing_after e c)) (w, n) log' _
             (Raise e) w'' out fuel eq_refl Hfail).
    lia.
  - reflexivity.
  - rewrite (pages_log_keys c b p m _ _ _ _ _ _ Hpages).
    rewrite <- (take_drop n log) at 2. rewrite log_keys_app.
    by apply prefix_app_r.
Qed.

Lemma list_objects_s3_partial_is_prefix_witness :
  pages Stubber.s3_client "bucket-a" "logs/" 2 None Stubber.three_pages
    Stubber.three_pages_log
    ["logs/a"; "logs/b"; "logs/c"; "logs/d"; "logs/e"] (Return tt) []
  /\ (1 < length Stubber.three_pages_log)%nat
  /\ (1 < 2)%nat
  /\ exists st',
       list_objects_s3 (boto3_with (failing_after Stubber.connection_error
                                      Stubber.s3_client))
         2 "bucket-a" "logs/" 2 (mkState (Stubber.three_pages, 1%nat) [])
       = Some (Return (log_keys (take 1 Stubber.three_pages_log)), st')
       /\ stdout st'
          = [] ++ ["Error listing objects: " +:+ exc_str Stubber.connection_error]
       /\ log_keys (take 1 Stubber.three_pages_log)
          `prefix_of` ["logs/a"; "logs/b"; "logs/c"; "logs/d"; "logs/e"].
Proof.
  assert (Hpages :
    pages Stubber.s3_client "bucket-a" "logs/" 2 None Stubber.three_pages
      Stubber.three_pages_log
      ["logs/a"; "logs/b"; "logs/c"; "logs/d"; "logs/e"] (Return tt) [])
    by play_pages.
  split; [exact Hpages|]. split; [simpl; lia|]. split; [lia|].
  apply (list_objects_s3_partial_is_prefix Stubber.s3_client Stubber.connection_error
           _ _ _ _ _ _ _ [] _ 1 2 Hpages); [simpl; lia | lia].
Defined.

(** X4: a response whose [NextContinuationToken] is the empty string ends
    the listing like a response without one: the call returns with the keys
    of that page and asks for no further page. *)
Theorem empty_token_ends_listing {W} (c : S3Client W) (b p : string) (m : Z)
    (w w' : W) (response : ListObjectsV2Output) (out : list string) (fuel : nat) :
  list_objects_v2 c (mkRequest b p m None) w = (Return response, w') ->
  NextContinuationToken response = Some EmptyString ->
  (1 <= fuel)%nat ->
  list_objects_s3 (boto3_with (recording c)) fuel b p m (mkState (w, []) out)
  = Some (Return (page_keys response),
          mkState (w', [ListObjectsV2 (mkRequest b p m None) (Return response)]) out).
Proof.
  intros Hcall Htoken Hfuel.
  rewrite (list_objects_s3_pages (recording c) b p m
             (boto3_with (recording c)) (w, [])
             [ListObjectsV2 (mkRequest b p m None) (Return response)]
             (page_keys response) (Return tt)
             (w', [ListObjectsV2 (mkRequest b p m None) (Return response)])
             out fuel eq_refl).
  - cbn [listing_output]. by rewrite app_nil_r.
  - apply pages_last.
    + cbn [list_objects_v2 recording]. by rewrite Hcall.
    + by rewrite Htoken.
  - simpl. lia.
Qed.

Lemma empty_token_ends_listing_witness :
  list_objects_v2 Stubber.s3_client (mkRequest "bucket-a" "logs/" 2 None)
    empty_token_script
  = (Return (Stubber.page ["logs/a"] (Some EmptyString)),
     [ Stubber.stub_list_objects_v2 (Return (Stubber.page ["logs/b"] None)) ])
  /\ NextContinuationToken (Stubber.page ["logs/a"] (Some EmptyString))
     = Some EmptyString
  /\ (1 <= 5)%nat
  /\ list_objects_s3 (boto3_with (recording Stubber.s3_client)) 5 "bucket-a" "logs/" 2
       (mkState (empty_token_script, []) [])
     = Some (Return (page_keys (Stubber.page ["logs/a"] (Some EmptyString))),
             mkState
               ([ Stubber.stub_list_objects_v2 (Return (Stubber.page ["logs/b"] None)) ],
                [ ListObjectsV2 (mkRequest "bucket-a" "logs/" 2 None)
                    (Return (Stubber.page ["logs/a"] (Some EmptyString))) ])
               []).
Proof.
  assert (Hcall :
    list_objects_v2 Stubber.s3_client (mkRequest "bucket-a" "logs/" 2 None)
      empty_token_script
    = (Return (Stubber.page ["logs/a"] (Some EmptyString)),
       [ Stubber.stub_list_objects_v2 (Return (Stubber.page ["logs/b"] None)) ]))
    by reflexivity.
  split; [exact Hcall|]. split; [reflexivity|]. split; [lia|].
  apply (empty_token_ends_listing Stubber.s3_client "bucket-a" "logs/" 2
           empty_token_script _ _ [] 5 Hcall eq_refl).
  lia.
Defined.

(** X5: [download_object_s3] and [delete_object_s3] each make exactly one
    request, whatever its outcome: [download_file] with the bucket, the key
    and the local path in this order, and [delete_object] with the bucket
    and the key.  Neither lists, uploads or repeats a failed request. *)
Theorem download_and_delete_make_one_request {W} (c : S3Client W)
    (bucket_name object_name download_path : string) (w : W)
    (log : list Exchange) (out : list string) :
  (exists r w',
      download_file c bucket_name object_name download_path w = (r, w')
      /\ download_object_s3 (boto3_with (recording c)) bucket_name object_name
           download_path (mkState (w, log) out)
         = (Return tt,
            mkState (w', log ++ [DownloadFile bucket_name object_name download_path r])
              (out ++ download_output bucket_name object_name download_path r)))
  /\ (exists r w',
         delete_object c bucket_name object_name w = (r, w')
         /\ delete_object_s3 (boto3_with (recording c)) bucket_name object_name
              (mkState (w, log) out)
            = (Return tt,
               mkState (w', log ++ [DeleteObject bucket_name object_name r])
                 (out ++ delete_output bucket_name object_name r))).
Proof.
  split.
  - destruct (download_file c bucket_name object_name download_path w)
      as [r w'] eqn:Hcall.
    exists r, w'. split; [done|].
    apply (download_object_s3_run (boto3_with (recording c)) (recording c) eq_refl).
    cbn [download_file recording]. by rewrite Hcall.
  - destruct (delete_object c bucket_name object_name w) as [r w'] eqn:Hcall.
    exists r, w'. split; [done|].
    apply (delete_object_s3_run (boto3_with (recording c)) (recording c) eq_refl).
    cbn [delete_object recording]. by rewrite Hcall.
Qed.

(** * Operations composed, against the in-memory store *)

Section SimComposition.
Import S3Sim.

Lemma sim_list_objects_s3 (w : World) (b pre : string)
    (objects : list (string * Data)) (m : Z) (out : list string) (fuel : nat) :
  buckets w !! b = Some objects ->
  1 <= m ->
  (length (matching_keys pre objects) < fuel)%nat ->
  list_objects_s3 boto3 fuel b pre m (mkState w out)
  = Some (Return (matching_keys pre objects), mkState w out).
Proof.
  intros Hbucket Hm Hfuel.
  destruct (sim_pages w b pre objects m Hbucket Hm) as (log & Hpages & Hcount).
  rewrite (list_objects_s3_pages s3_client b pre m boto3 w log
             (matching_keys pre objects) (Return tt) w out fuel eq_refl Hpages).
  - cbn [listing_output]. by rewrite app_nil_r.
  - rewrite Hcount.
    pose proof (page_count_le (page_limit m)
                  (length (matching_keys pre objects)) (page_limit_pos m Hm)).
    lia.
Qed.

Lemma sim_upload_object_s3 (w : World) (b path k : string) (data : Data)
    (objects : list (string * Data)) (out : list string) :
  files w !! path = Some data ->
  buckets w !! b = Some objects ->
  upload_object_s3 boto3 b path k (mkState w out)
  = (Return tt,
     mkState (mkWorld (<[b := put k data objects]> (buckets w)) (files w))
       (out ++ upload_output b path k (Return tt))).
Proof.
  intros Hfile Hbucket.
  apply (upload_object_s3_run boto3 s3_client eq_refl).
  cbn [upload_file s3_client]. unfold sim_upload_file. by rewrite Hfile, Hbucket.
Qed.

Lemma sim_delete_object_s3 (w : World) (b k : string)
    (objects : list (string * Data)) (out : list string) :
  buckets w !! b = Some objects ->
  delete_object_s3 boto3 b k (mkState w out)
  = (Return tt,
     mkState (mkWorld (<[b := remove k objects]> (buckets w)) (files w))
       (out ++ delete_output b k (Return tt))).
Proof.
  intros Hbucket.
  apply (delete_object_s3_run boto3 s3_client eq_refl).
  cbn [delete_object s3_client]. unfold sim_delete_object. by rewrite Hbucket.
Qed.

Lemma find_put k data (objects : list (string * Data)) :
  List.find (fun o => (fst o =? k)%string) (put k data objects) = Some (k, data).
Proof.
  induction objects as [|o objects IH]; simpl.
  - by rewrite String.eqb_refl.
  - destruct (fst o =? k)%string eqn:Ho; simpl.
    + by rewrite String.eqb_refl.
    + destruct (k <? fst o)%string; simpl.
      * by rewrite String.eqb_refl.
      * by rewrite Ho.
Qed.

Lemma keys_put k data (objects : list (string * Data)) k' :
  k' ∈ map fst (put k data objects) <-> k' = k \/ k' ∈ map fst objects.
Proof.
  induction objects as [|o objects IH]; simpl.
  - rewrite list_elem_of_singleton, elem_of_nil. tauto.
  - destruct (fst o =? k)%string eqn:Ho; simpl.
    + apply String.eqb_eq in Ho. rewrite !elem_of_cons, Ho. tauto.
    + destruct (k <? fst o)%string; simpl.
      * rewrite !elem_of_cons. tauto.
      * rewrite !elem_of_cons, IH. tauto.
Qed.

Lemma length_put k data (objects : list (string * Data)) :
  (length (put k data objects) <= S (length objects))%nat.
Proof.
  induction objects as [|o objects IH]; simpl; [lia|].
  destruct (fst o =? k)%string; simpl; [lia|].
  destruct (k <? fst o)%string; simpl; lia.
Qed.

Lemma length_matching_keys pre (objects : list (string * Data)) :
  (length (matching_keys pre objects) <= length objects)%nat.
Proof.
  unfold matching_keys, matching. rewrite length_map.
  induction objects as [|o objects IH]; simpl; [lia|].
  destruct (String.prefix pre (fst o)); simpl; lia.
Qed.

Lemma elem_of_matching_keys pre (objects : list (string * Data)) k :
  k ∈ matching_keys pre objects
  <-> String.prefix pre k = true /\ k ∈ map fst objects.
Proof.
  unfold matching_keys, matching.
  induction objects as [|o objects IH]; simpl.
  - rewrite elem_of_nil. tauto.
  - destruct (String.prefix pre (fst o)) eqn:Ho; simpl;
      rewrite ?elem_of_cons, IH; split.
    + intros [->|[? ?]]; auto.
    + intros [? [->|?]]; auto.
    + intros [? ?]; auto.
    + intros [Hk [->|?]]; [congruence|auto].
Qed.

Lemma matching_keys_remove pre k (objects : list (string * Data)) :
  matching_keys pre (remove k objects)
  = List.filter (fun x => negb (x =? k)%string) (matching_keys pre objects).
Proof.
  unfold matching_keys, matching, remove.
  induction objects as [|o objects IH]; simpl; [done|].
  destruct (fst o =? k)%string eqn:Hk, (String.prefix pre (fst o)) eqn:Hp;
    simpl; rewrite ?Hk, ?Hp; simpl; by rewrite ?IH.
Qed.
End SimComposition.

Section SimRoundTrips.
Import S3Sim.

(** X6: upload then download is a round trip.  With the local file and
    the bucket there, [upload_object_s3] followed by [download_object_s3]
    of the same key leaves a copy of the uploaded bytes at the download
    path and the source file as it was; both calls return [None] after
    their success lines. *)
Theorem upload_then_download_round_trip (w : World) (b path path' k : string)
    (data : Data) (objects : list (string * Data)) (out : list string) :
  files w !! path = Some data ->
  buckets w !! b = Some objects ->
  exists st1 st2,
    upload_object_s3 boto3 b path k (mkState w out) = (Return tt, st1)
    /\ download_object_s3 boto3 b k path' st1 = (Return tt, st2)
    /\ files (world st2) !! path' = Some data
    /\ files (world st2) !! path = Some data
    /\ lookup_object (world st2) b k = Some data
    /\ stdout st2
       = (out ++ upload_output b path k (Return tt))
         ++ download_output b k path' (Return tt).
Proof.
  intros Hfile Hbucket.
  eexists _, _. split; [by apply sim_upload_object_s3|].
  assert (Hstored :
    lookup_object (mkWorld (<[b := put k data objects]> (buckets w)) (files w)) b k
    = Some data).
  { unfold lookup_object. cbn [buckets]. rewrite lookup_insert_eq. cbn.
    by rewrite find_put. }
  split; [|split; [|split; [|split]]].
  - apply (download_object_s3_run boto3 s3_client eq_refl).
    cbn [download_file s3_client]. unfold sim_download_file. by rewrite Hstored.
  - cbn [world files]. by rewrite lookup_insert_eq.
  - cbn [world files]. destruct (decide (path' = path)) as [->|Hne].
    + by rewrite lookup_insert_eq.
    + by rewrite lookup_insert_ne.
  - exact Hstored.
  - reflexivity.
Qed.

Lemma upload_then_download_round_trip_witness :
  files (mkWorld (buckets example_world) {[ "iris.joblib" := [Byte.x01; Byte.x02] ]})
    !! "iris.joblib" = Some [Byte.x01; Byte.x02]
  /\ buckets (mkWorld (buckets example_world)
                {[ "iris.joblib" := [Byte.x01; Byte.x02] ]})
       !! "bucket-a" = Some bucket_a
  /\ exists st1 st2,
       upload_object_s3 boto3 "bucket-a" "iris.joblib" "new_test_folder_s3/iris.df"
         (mkState (mkWorld (buckets example_world)
                     {[ "iris.joblib" := [Byte.x01; Byte.x02] ]}) [])
       = (Return tt, st1)
       /\ download_object_s3 boto3 "bucket-a" "new_test_folder_s3/iris.df"
            "new_iris.joblib" st1
          = (Return tt, st2)
       /\ files (world st2) !! "new_iris.joblib" = Some [Byte.x01; Byte.x02]
       /\ files (world st2) !! "iris.joblib" = Some [Byte.x01; Byte.x02]
       /\ lookup_object (world st2) "bucket-a" "new_test_folder_s3/iris.df"
          = Some [Byte.x01; Byte.x02]
       /\ stdout st2
          = ([] ++ upload_output "bucket-a" "iris.joblib" "new_test_folder_s3/iris.df"
                     (Return tt))
            ++ download_output "bucket-a" "new_test_folder_s3/iris.df"
                 "new_iris.joblib" (Return tt).
Proof.
  assert (Hfile :
    files (mkWorld (buckets example_world) {[ "iris.joblib" := [Byte.x01; Byte.x02] ]})
      !! "iris.joblib" = Some [Byte.x01; Byte.x02]) by reflexivity.
  assert (Hbucket :
    buckets (mkWorld (buckets example_world)
               {[ "iris.joblib" := [Byte.x01; Byte.x02] ]})
      !! "bucket-a" = Some bucket_a) by reflexivity.
  split; [exact Hfile|]. split; [exact Hbucket|].
  apply (upload_then_download_round_trip _ "bucket-a" "iris.joblib" "new_iris.joblib"
           "new_test_folder_s3/iris.df" _ _ [] Hfile Hbucket).
Defined.

(** X7: an uploaded object is listed.  After [upload_object_s3] of a key
    that has the prefix, [list_objects_s3] returns the uploaded key
    together with exactly the keys the prefix matched before. *)
Theorem upload_then_list (w : World) (b path k pre : string) (data : Data)
    (objects : list (string * Data)) (m : Z) (out : list string) (fuel : nat) :
  files w !! path = Some data ->
  buckets w !! b = Some objects ->
  String.prefix pre k = true ->
  1 <= m ->
  (S (length objects) < fuel)%nat ->
  exists st1 keys st2,
    upload_object_s3 boto3 b path k (mkState w out) = (Return tt, st1)
    /\ list_objects_s3 boto3 fuel b pre m st1 = Some (Return keys, st2)
    /\ (forall k', k' ∈ keys <-> k' = k \/ k' ∈ matching_keys pre objects).
Proof.
  intros Hfile Hbucket Hprefix Hm Hfuel.
  eexists _, _, _. split; [by apply sim_upload_object_s3|]. split.
  - apply sim_list_objects_s3 with (objects := put k data objects); [|done|].
    + cbn [buckets]. by rewrite lookup_insert_eq.
    + pose proof (length_matching_keys pre (put k data objects)).
      pose proof (length_put k data objects). lia.
  - intros k'. rewrite !elem_of_matching_keys, keys_put. split.
    + intros [? [->|?]]; auto.
    + intros [->|[? ?]]; auto.
Qed.

Lemma upload_then_list_witness :
  files (mkWorld (buckets example_world) {[ "today.log" := [Byte.x0a] ]})
    !! "today.log" = Some [Byte.x0a]
  /\ buckets (mkWorld (buckets example_world) {[ "today.log" := [Byte.x0a] ]})
       !! "bucket-a" = Some bucket_a
  /\ String.prefix "logs/" "logs/2024-01-06.log" = true
  /\ 1 <= 2
  /\ (S (length bucket_a) < 8)%nat
  /\ exists st1 keys st2,
       upload_object_s3 boto3 "bucket-a" "today.log" "logs/2024-01-06.log"
         (mkState (mkWorld (buckets example_world) {[ "today.log" := [Byte.x0a] ]}) [])
       = (Return tt, st1)
       /\ list_objects_s3 boto3 8 "bucket-a" "logs/" 2 st1 = Some (Return keys, st2)
       /\ (forall k', k' ∈ keys
                      <-> k' = "logs/2024-01-06.log"
                          \/ k' ∈ matching_keys "logs/" bucket_a).
Proof.
  assert (Hfile :
    files (mkWorld (buckets example_world) {[ "today.log" := [Byte.x0a] ]})
      !! "today.log" = Some [Byte.x0a]) by reflexivity.
  assert (Hbucket :
    buckets (mkWorld (buckets example_world) {[ "today.log" := [Byte.x0a] ]})
      !! "bucket-a" = Some bucket_a) by reflexivity.
  split; [exact Hfile|]. split; [exact Hbucket|]. split; [reflexivity|].
  split; [lia|]. split; [simpl; lia|].
  apply (upload_then_list _ "bucket-a" "today.log" "logs/2024-01-06.log" "logs/"
           _ _ 2 [] 8 Hfile Hbucket); [reflexivity | lia | simpl; lia].
Defined.

(** X8: a deleted object is no longer listed.  After [delete_object_s3]
    of a key, [list_objects_s3] returns the keys the prefix matched before
    without that key, the others in their order. *)
Theorem delete_then_list (w : World) (b k pre : string)
    (objects : list (string * Data)) (m : Z) (out : list string) (fuel : nat) :
  buckets w !! b = Some objects ->
  1 <= m ->
  (length objects < fuel)%nat ->
  exists st1 st2,
    delete_object_s3 boto3 b k (mkState w out) = (Return tt, st1)
    /\ list_objects_s3 boto3 fuel b pre m st1
       = Some (Return (List.filter (fun x => negb (x =? k)%string)
                         (matching_keys pre objects)), st2)
    /\ (k ∉ List.filter (fun x => negb (x =? k)%string)
               (matching_keys pre objects))
    /\ stdout st2 = stdout st1.
Proof.
  intros Hbucket Hm Hfuel.
  eexists _, _. split; [by apply sim_delete_object_s3|].
  split; [|split].
  - rewrite <- matching_keys_remove.
    apply sim_list_objects_s3 with (objects := remove k objects); [|done|].
    + cbn [buckets]. by rewrite lookup_insert_eq.
    + rewrite matching_keys_remove.
      pose proof (length_matching_keys pre objects).
      pose proof (filter_length_le (fun x => negb (x =? k)%string)
                    (matching_keys pre objects)).
      lia.
  - intros Hin. apply list_elem_of_In, filter_In in Hin as [_ Hin].
    by rewrite String.eqb_refl in Hin.
  - reflexivity.
Qed.

Lemma delete_then_list_witness :
  buckets example_world !! "bucket-a" = Some bucket_a
  /\ 1 <= 2
  /\ (length bucket_a < 7)%nat
  /\ exists st1 st2,
       delete_object_s3 boto3 "bucket-a" "logs/2024-01-02.log"
         (mkState example_world [])
       = (Return tt, st1)
       /\ list_objects_s3 boto3 7 "bucket-a" "logs/" 2 st1
          = Some (Return (List.filter
                            (fun x => negb (x =? "logs/2024-01-02.log")%string)
                            (matching_keys "logs/" bucket_a)), st2)
       /\ ("logs/2024-01-02.log"
           ∉ List.filter (fun x => negb (x =? "logs/2024-01-02.log")%string)
               (matching_keys "logs/" bucket_a))
       /\ stdout st2 = stdout st1.
Proof.
  assert (Hbucket : buckets example_world !! "bucket-a" = Some bucket_a)
    by reflexivity.
  split; [exact Hbucket|]. split; [lia|]. split; [simpl; lia|].
  apply (delete_then_list example_world "bucket-a" "logs/2024-01-02.log" "logs/"
           bucket_a 2 [] 7 Hbucket); [lia | simpl; lia].
Defined.
End SimRoundTrips.

Section SimFailures.
Import S3Sim.

(** X9: a deleted object cannot be downloaded.  After [delete_object_s3]
    of a key, [download_object_s3] of that key returns [None], prints the
    not-found error and leaves every local file as it was. *)
Theorem delete_then_download (w : World) (b k path : string)
    (objects : list (string * Data)) (out : list string) :
  buckets w !! b = Some objects ->
  exists st1,
    delete_object_s3 boto3 b k (mkState w out) = (Return tt, st1)
    /\ download_object_s3 boto3 b k path st1
       = (Return tt,
          mkState (world st1)
            (stdout st1 ++ download_output b k path (Raise not_found)))
    /\ files (world st1) = files w.
Proof.
  intros Hbucket.
  eexists. split; [by apply sim_delete_object_s3|]. split; [|reflexivity].
  apply (download_object_s3_run boto3 s3_client eq_refl).
  cbn [download_file s3_client]. unfold sim_download_file, lookup_object.
  cbn [buckets]. rewrite lookup_insert_eq. cbn. by rewrite find_remove.
Qed.

Lemma delete_then_download_witness :
  buckets example_world !! "bucket-a" = Some bucket_a
  /\ exists st1,
       delete_object_s3 boto3 "bucket-a" "conf/app.ini" (mkState example_world [])
       = (Return tt, st1)
       /\ download_object_s3 boto3 "bucket-a" "conf/app.ini" "app.ini" st1
          = (Return tt,
             mkState (world st1)
               (stdout st1
                ++ download_output "bucket-a" "conf/app.ini" "app.ini"
                     (Raise not_found)))
       /\ files (world st1) = files example_world.
Proof.
  assert (Hbucket : buckets example_world !! "bucket-a" = Some bucket_a)
    by reflexivity.
  split; [exact Hbucket|].
  apply (delete_then_download example_world "bucket-a" "conf/app.ini" "app.ini"
           bucket_a [] Hbucket).
Defined.

(** X10: a failed listing cannot be told from an empty one by its value.
    Listing a bucket that does not exist returns the empty list, the value
    returned for a bucket without objects; the error of the service is in
    the printed line only. *)
Theorem list_missing_bucket_returns_empty (w : World) (b pre : string) (m : Z)
    (out : list string) (fuel : nat) :
  buckets w !! b = None ->
  (1 <= fuel)%nat ->
  list_objects_s3 boto3 fuel b pre m (mkState w out)
  = Some (Return [],
          mkState w
            (out ++ ["Error listing objects: An error occurred (NoSuchBucket) when calling the ListObjectsV2 operation: The specified bucket does not exist"])).
Proof.
  intros Hbucket Hfuel.
  apply (list_objects_s3_pages s3_client b pre m boto3 w
           [ListObjectsV2 (mkRequest b pre m None)
              (Raise (no_such_bucket "ListObjectsV2"))]
           [] (Raise (no_such_bucket "ListObjectsV2")) w out fuel eq_refl);
    [|simpl; lia].
  apply pages_fail. cbn [list_objects_v2 s3_client]. unfold sim_list_objects_v2.
  cbn [Bucket]. by rewrite Hbucket.
Qed.

Lemma list_missing_bucket_returns_empty_witness :
  buckets example_world !! "bucket-b" = None
  /\ (1 <= 1)%nat
  /\ list_objects_s3 boto3 1 "bucket-b" "logs/" default_max_keys
       (mkState example_world [])
     = Some (Return [],
             mkState example_world
               ([] ++ ["Error listing objects: An error occurred (NoSuchBucket) when calling the ListObjectsV2 operation: The specified bucket does not exist"])).
Proof.
  assert (Hbucket : buckets example_world !! "bucket-b" = None) by reflexivity.
  split; [exact Hbucket|]. split; [lia|].
  apply (list_missing_bucket_returns_empty example_world "bucket-b" "logs/"
           default_max_keys [] 1 Hbucket).
  lia.
Defined.
End SimFailures.

(** * The script as a program *)

(** X11: the script never stops at a failed request.  Whatever the outcome
    of its delete, it goes on to list the whole bucket (empty prefix, the
    default page size of 123) and prints the list; a failure of the delete
    or of a page request only adds its line to the output, and the script
    ends without an exception. *)
Theorem main_lists_whatever_delete_did {W} (repr : list string -> string)
    (c : S3Client W) (w w1 w' : W) (r : result unit) (log : list Exchange)
    (keys out : list string) (r' : result unit) (fuel : nat) :
  delete_object c main_bucket_name main_object_name w = (r, w1) ->
  pages c main_bucket_name EmptyString 123 None w1 log keys r' w' ->
  (length log <= fuel)%nat ->
  main repr (boto3_with c) fuel (mkState w out)
  = Some (Return tt,
          mkState w'
            (((out ++ delete_output main_bucket_name main_object_name r)
              ++ listing_output r') ++ [repr keys])).
Proof.
  intros Hdelete Hpages Hfuel. unfold main.
  rewrite (delete_object_s3_run (boto3_with c) c eq_refl _ _ w out r w1 Hdelete).
  by rewrite (list_objects_s3_pages c main_bucket_name EmptyString 123
                (boto3_with c) w1 log keys r' w' _ fuel eq_refl Hpages Hfuel).
Qed.

Lemma main_lists_whatever_delete_did_witness :
  delete_object Stubber.s3_client main_bucket_name main_object_name
    [ Stubber.stub_delete_object (Raise Stubber.connection_error);
      Stubber.stub_list_objects_v2 (Return (Stubber.page ["iris.df"] None)) ]
  = (Raise Stubber.connection_error,
     [ Stubber.stub_list_objects_v2 (Return (Stubber.page ["iris.df"] None)) ])
  /\ pages Stubber.s3_client main_bucket_name EmptyString 123 None
       [ Stubber.stub_list_objects_v2 (Return (Stubber.page ["iris.df"] None)) ]
       [ ListObjectsV2 (mkRequest main_bucket_name EmptyString 123 None)
           (Return (Stubber.page ["iris.df"] None)) ]
       ["iris.df"] (Return tt) []
  /\ (length [ ListObjectsV2 (mkRequest main_bucket_name EmptyString 123 None)
                 (Return (Stubber.page ["iris.df"] None)) ] <= 1)%nat
  /\ main (String.concat ", ") Stubber.boto3 1
       (mkState
          [ Stubber.stub_delete_object (Raise Stubber.connection_error);
            Stubber.stub_list_objects_v2 (Return (Stubber.page ["iris.df"] None)) ]
          [])
     = Some (Return tt,
             mkState []
               ((([] ++ delete_output main_bucket_name main_object_name
                          (Raise Stubber.connection_error))
                 ++ listing_output (Return tt))
                ++ [String.concat ", " ["iris.df"]])).
Proof.
  assert (Hdelete :
    delete_object Stubber.s3_client main_bucket_name main_object_name
      [ Stubber.stub_delete_object (Raise Stubber.connection_error);
        Stubber.stub_list_objects_v2 (Return (Stubber.page ["iris.df"] None)) ]
    = (Raise Stubber.connection_error,
       [ Stubber.stub_list_objects_v2 (Return (Stubber.page ["iris.df"] None)) ]))
    by reflexivity.
  assert (Hpages :
    pages Stubber.s3_client main_bucket_name EmptyString 123 None
      [ Stubber.stub_list_objects_v2 (Return (Stubber.page ["iris.df"] None)) ]
      [ ListObjectsV2 (mkRequest main_bucket_name EmptyString 123 None)
          (Return (Stubber.page ["iris.df"] None)) ]
      ["iris.df"] (Return tt) [])
    by play_pages.
  split; [exact Hdelete|]. split; [exact Hpages|]. split; [simpl; lia|].
  apply (main_lists_whatever_delete_did (String.concat ", ") Stubber.s3_client
           _ _ _ _ _ _ [] _ 1 Hdelete Hpages).
  simpl; lia.
Defined.

(** * No bound on the pages *)

(** X13: [list_objects_s3] has no bound of its own on the number of pages.
    Against a service whose every response carries a non-empty token the
    loop does not end: the call has not returned after any number of
    iterations. *)
Theorem list_objects_s3_runs_while_tokens_come {W} (c : S3Client W)
    (b p : string) (m : Z) (st : State W) (fuel : nat) :
  (forall request w,
      exists response w',
        list_objects_v2 c request w = (Return response, w')
        /\ truthy (NextContinuationToken response) = true) ->
  list_objects_s3 (boto3_with c) fuel b p m st = None.
Proof.
  intros Hendless. unfold list_objects_s3. cbn [client boto3_with].
  assert (Hloop : forall l w, list_loop fuel c b p m l w = None).
  { induction fuel as [|n IH]; intros l w; [done|]. simpl.
    destruct (Hendless (page_request b p m (continuation_token l)) w)
      as (response & w' & -> & ->).
    apply IH. }
  by rewrite Hloop.
Qed.

Lemma list_objects_s3_runs_while_tokens_come_witness :
  (forall request w,
      exists response w',
        list_objects_v2 looping_client request w = (Return response, w')
        /\ truthy (NextContinuationToken response) = true)
  /\ list_objects_s3 (boto3_with looping_client) 1000 "bucket-a" "logs/" 2
       (mkState tt [])
     = None.
Proof.
  assert (Hendless : forall request w,
    exists response w',
      list_objects_v2 looping_client request w = (Return response, w')
      /\ truthy (NextContinuationToken response) = true).
  { intros request w. exists (mkOutput None (Some "again")), w. split; reflexivity. }
  split; [exact Hendless|].
  apply (list_objects_s3_runs_while_tokens_come looping_client "bucket-a" "logs/" 2
           (mkState tt []) 1000 Hendless).
Defined.
